(** * remark-lint: maximum-heading-length and list-item-spacing

    A shallow embedding of the two lint rules of
    [packages/remark-lint-maximum-heading-length/index.js]
    (the file holds both rule modules) and the properties their
    documentation states about them.

    JavaScript data is modelled as follows.
    - Numbers are IEEE 754 doubles: [spec_float] of the standard library
      (zero, infinity, NaN, or sign/mantissa/exponent).
    - Strings are [string]; one character stands for one code unit, so
      [String.length] is the [.length] of the script.
    - Option values are a tagged union [value] of the script's dynamic types.
    - Syntax-tree nodes are records whose optional fields are [option]s.
    - A rule runs in a monad that threads the document tree and the
      messages of the file, and that can throw.

    The rule functions are modelled as they are handed to the framework's
    [rule(...)] wrapper; the wrapper, the parser, the tree walker and the
    position utilities belong to other packages. *)

From Stdlib Require Import ZArith List String Ascii Bool Lia.
From Stdlib Require Import SpecFloat DecimalString.
Import ListNotations.
Local Open Scope string_scope.
Local Open Scope Z_scope.
Set Warnings "-register-all".

(** ** Dynamic values *)

(** A number of the script. *)
Definition number : Type := spec_float.

(** An option value handed to a rule.  Objects and functions carry their
    own properties as an association list (first binding wins). *)
Inductive value : Type :=
| VUndefined
| VNull
| VBoolean (b : bool)
| VNumber (n : number)
| VString (s : string)
| VObject (props : list (string * value))
| VFunction (props : list (string * value)).

(** [typeof v] *)
Definition typeof (v : value) : string :=
  match v with
  | VUndefined => "undefined"
  | VNull => "object"
  | VBoolean _ => "boolean"
  | VNumber _ => "number"
  | VString _ => "string"
  | VObject _ => "object"
  | VFunction _ => "function"
  end.

(** [isNaN n] for a value that is already a number. *)
Definition isNaN (n : number) : bool :=
  match n with
  | S754_nan => true
  | _ => false
  end.

(** A number that is neither NaN nor an infinity. *)
Definition is_finite_number (n : number) : bool :=
  match n with
  | S754_zero _ | S754_finite _ _ _ => true
  | S754_infinity _ | S754_nan => false
  end.

(** ToBoolean. *)
Definition truthy (v : value) : bool :=
  match v with
  | VUndefined | VNull => false
  | VBoolean b => b
  | VNumber (S754_zero _) | VNumber S754_nan => false
  | VNumber _ => true
  | VString s => negb (String.eqb s "")
  | VObject _ | VFunction _ => true
  end.

(** What a script can throw here. [FuelExhausted] is the outcome of a
    loop of the model that was given too few iterations; the theorems
    show it never happens. *)
Inductive Error : Type :=
| TypeError
| FuelExhausted.

Inductive Outcome (A : Type) : Type :=
| Returned (a : A)
| Thrown (e : Error).
Arguments Returned {A} a.
Arguments Thrown {A} e.

(** Own property lookup in an association list. *)
Fixpoint lookup (props : list (string * value)) (key : string) : option value :=
  match props with
  | [] => None
  | (k, v) :: rest => if String.eqb k key then Some v else lookup rest key
  end.

(** [v.key]: throws on [undefined] and [null]; a missing property reads
    as [undefined]; primitives have no such own property. *)
Definition get_member (v : value) (key : string) : Outcome value :=
  match v with
  | VUndefined | VNull => Thrown TypeError
  | VObject props | VFunction props =>
      match lookup props key with
      | Some x => Returned x
      | None => Returned VUndefined
      end
  | VBoolean _ | VNumber _ | VString _ => Returned VUndefined
  end.

(** ** Numbers against string lengths *)

(** The number 60, and any natural number as a number. *)
Definition number_of_nat (n : nat) : number :=
  match n with
  | O => S754_zero false
  | S _ => S754_finite false (Pos.of_nat n) 0
  end.

Definition sixty : number := number_of_nat 60.

(** [len > p] where [len] is the length of a string: the comparison of the
    two mathematical values, false whenever [p] is NaN. A finite number
    [S754_finite s m e] has the value [(-1)^s * m * 2^e]. *)
Definition length_gt (len : nat) (p : number) : bool :=
  match p with
  | S754_nan => false
  | S754_infinity negative => negative
  | S754_zero _ => 0 <? Z.of_nat len
  | S754_finite true _ _ => true
  | S754_finite false m e =>
      if 0 <=? e
      then Z.pos m * 2 ^ e <? Z.of_nat len
      else Z.pos m <? Z.of_nat len * 2 ^ (- e)
  end.

(** [len <= p], in the same way. *)
Definition length_le (len : nat) (p : number) : bool :=
  match p with
  | S754_nan => false
  | S754_infinity negative => negb negative
  | S754_zero _ => Z.of_nat len <=? 0
  | S754_finite true _ _ => false
  | S754_finite false m e =>
      if 0 <=? e
      then Z.of_nat len <=? Z.pos m * 2 ^ e
      else Z.of_nat len * 2 ^ (- e) <=? Z.pos m
  end.

(** ** Option handling of the two rules *)

(** [typeof option === 'number' && !isNaN(option) ? option : 60] *)
Definition preferred_of (option : value) : number :=
  match option with
  | VNumber n => if negb (isNaN n) then n else sixty
  | _ => sixty
  end.

(** [Boolean(preferred && typeof preferred === 'object' &&
    preferred.checkBlanks)], with the short-circuits of [&&]. *)
Definition blanks_of (preferred : value) : Outcome bool :=
  let left :=
    if truthy preferred
    then VBoolean (String.eqb (typeof preferred) "object")
    else preferred in
  match (if truthy left then get_member preferred "checkBlanks"
         else Returned left) with
  | Returned v => Returned (truthy v)
  | Thrown e => Thrown e
  end.

(** ** The syntax tree *)

(** A point in the source. A coordinate is [None] when the field holds no
    number: missing in the tree, [null] in what the position utility
    returns. *)
Record Point : Type := mkPoint {
  line : option Z;
  column : option Z
}.

(** The [position] field of a node; each end may be missing. *)
Record Position : Type := mkPosition {
  p_start : option Point;
  p_end : option Point
}.

(** A node: its [type], the optional text fields [value], [alt] and
    [title], the optional [position], and the optional [children]. *)
Inductive Node : Type := mkNode {
  type : string;
  n_value : option string;
  n_alt : option string;
  n_title : option string;
  position : option Position;
  children : option (list Node)
}.

(** [x || null] on a coordinate: zero is falsy. *)
Definition or_null (c : option Z) : option Z :=
  match c with
  | Some 0 => None
  | other => other
  end.

(** ToNumber on a coordinate: [null] counts as 0. *)
Definition to_number (c : option Z) : Z :=
  match c with
  | Some z => z
  | None => 0
  end.

(** Modelled from the spec: the position utility [start(node)] and
    [end(node)] of the external package, returning the line and column of
    the point, with [null] coordinates for an absent node, an absent
    position or an absent point. The argument is [None] when the script
    passes [undefined] (an index past the end of an array). *)
Definition point_of (field : Position -> option Point) (node : option Node)
  : Point :=
  match node with
  | Some n =>
      match position n with
      | Some pos =>
          match field pos with
          | Some pt => mkPoint (or_null (line pt)) (or_null (column pt))
          | None => mkPoint None None
          end
      | None => mkPoint None None
      end
  | None => mkPoint None None
  end.

Definition start : option Node -> Point := point_of p_start.
Definition end_ : option Node -> Point := point_of p_end.

(** Modelled from the spec: the generated-node predicate of the external
    package; a node is generated when it has no full source range, that is
    when one of the four coordinates of its position is missing. *)
Definition generated (node : Node) : bool :=
  match line (start (Some node)), column (start (Some node)),
        line (end_ (Some node)), column (end_ (Some node)) with
  | Some _, Some _, Some _, Some _ => false
  | _, _, _, _ => true
  end.

(** ** Messages and the rule monad *)

(** Where a message is anchored: the script passes either a node or an
    object [{start, end}] of two points. *)
Inductive Place : Type :=
| AtNode (node : Node)
| AtRange (from to : Point).

Record Message : Type := mkMessage {
  reason : string;
  place : Place
}.

(** The source range a message is anchored at. *)
Definition range_of (p : Place) : Point * Point :=
  match p with
  | AtNode node => (start (Some node), end_ (Some node))
  | AtRange from to => (from, to)
  end.

(** What a rule can touch: the document tree and the messages of the
    file. *)
Record World : Type := mkWorld {
  tree : Node;
  messages : list Message
}.

Definition M (A : Type) : Type := World -> Outcome A * World.

Definition ret {A : Type} (a : A) : M A := fun w => (Returned a, w).

Definition bind {A B : Type} (m : M A) (f : A -> M B) : M B :=
  fun w =>
    match m w with
    | (Returned a, w') => f a w'
    | (Thrown e, w') => (Thrown e, w')
    end.

Definition throw {A : Type} (e : Error) : M A := fun w => (Thrown e, w).

Notation "x <- m ;; k" := (bind m (fun x => k))
  (at level 61, m at next level, right associativity).
Notation "m ;;; k" := (bind m (fun _ => k))
  (at level 61, right associativity).

(** The tree the rule was called with. *)
Definition get_tree : M Node := fun w => (Returned (tree w), w).

(** [file.message(reason, place)]: appends a message to the file. *)
Definition message (reason : string) (place : Place) : M unit :=
  fun w =>
    (Returned tt, mkWorld (tree w) (messages w ++ [mkMessage reason place])).

(** The world after [extra] more messages. *)
Definition reported (w : World) (extra : list Message) : World :=
  mkWorld (tree w) (messages w ++ extra).

(** [array.forEach(callback)], the callback receiving the element and its
    index. [locals] are the variables of the enclosing function that the
    callback assigns to. *)
Fixpoint forEach_from {A L : Type} (callback : A -> nat -> L -> M L)
  (index : nat) (array : list A) (locals : L) : M L :=
  match array with
  | [] => ret locals
  | x :: rest =>
      locals' <- callback x index locals ;;
      forEach_from callback (S index) rest locals'
  end.

Definition forEach {A L : Type} (callback : A -> nat -> L -> M L)
  (array : list A) (locals : L) : M L :=
  forEach_from callback 0%nat array locals.

(** The nodes of a tree, parents before children, in document order. *)
Fixpoint preorder (node : Node) : list Node :=
  node ::
  match node with
  | mkNode _ _ _ _ _ (Some kids) => flat_map preorder kids
  | mkNode _ _ _ _ _ None => []
  end.

(** Modelled from the spec: the external tree walker [visit(tree, type,
    visitor)], a full traversal that calls the visitor on every node of
    the given type. The visitors of both rules return nothing, so the
    walk is never cut short. *)
Definition visit (root : Node) (test : string) (visitor : Node -> M unit)
  : M unit :=
  forEach (fun node _ _ => visitor node)
          (filter (fun node => String.eqb (type node) test) (preorder root)) tt.

(** An outcome computed without touching the world. *)
Definition lift {A : Type} (o : Outcome A) : M A := fun w => (o, w).

(** [array[i]] for a possibly negative index: [None] is [undefined]. *)
Definition at_index {A : Type} (array : list A) (i : Z) : option A :=
  if i <? 0 then None else nth_error array (Z.to_nat i).

(** ** The heading rule *)

Module MaximumHeadingLength.

Section Rule.

(** The plain-text flattening utility and the number-to-string
    conversion of string concatenation are external to the rule. *)
Variable toString : Node -> string.
Variable number_to_string : number -> string.

Definition visitor (preferred : number) (node : Node) : M unit :=
  if negb (generated node)
     && length_gt (String.length (toString node)) preferred
  then message ("Use headings shorter than `"
                ++ number_to_string preferred ++ "`") (AtNode node)
  else ret tt.

Definition maximumHeadingLength (option : value) : M unit :=
  let preferred := preferred_of option in
  root <- get_tree ;;
  visit root "heading" (visitor preferred).

End Rule.

End MaximumHeadingLength.

(** ** The list rule *)

Module ListItemSpacing.

(** The body of the [while] loop of [inferBlankLine], entered with the
    values of [index] and [child] before [++index]. [None] when [fuel]
    iterations were not enough. *)
Fixpoint inferBlankLine_loop (fuel : nat) (children : list Node)
  (index : nat) (child : option Node) : option bool :=
  match fuel with
  | O => None
  | S fuel' =>
      let index := S index in
      if (index <? List.length children)%nat
      then
        let next := nth_error children index in
        if to_number (line (start next)) - to_number (line (end_ child)) >? 1
        then Some true
        else inferBlankLine_loop fuel' children index next
      else Some false
  end.

Definition inferBlankLine (item : Node) : M bool :=
  match children item with
  | None => throw TypeError
  | Some children =>
      let length := List.length children in
      let index := 0%nat in
      let child := nth_error children index in
      match inferBlankLine_loop (S length) children index child with
      | Some result => ret result
      | None => throw FuelExhausted
      end
  end.

Definition inferMultiline (item : Node) : M bool :=
  match children item with
  | None => throw TypeError
  | Some content =>
      let head := at_index content 0 in
      let tail := at_index content (Z.of_nat (List.length content) - 1) in
      ret (to_number (line (end_ tail)) - to_number (line (start head)) >? 0)
  end.

(** [infer], with the variable [isTightList] of the visitor as the
    local it assigns to. *)
Definition infer (blanks : bool) (item : Node) (index : nat)
  (isTightList : bool) : M bool :=
  let fn := if blanks then inferBlankLine else inferMultiline in
  forces <- fn item ;;
  if forces then ret false else ret isTightList.

Definition warn (items : list Node) (indent : option Z)
  (isTightList : bool) (type : string)
  (item : Node) (index : nat) (_ : unit) : M unit :=
  let next := nth_error items (index + 1) in
  let isTight :=
    to_number (column (end_ (Some item))) >? to_number indent in
  match next with
  | None => ret tt
  | Some _ =>
      if negb (Bool.eqb isTight isTightList)
      then
        if String.eqb type "loose"
        then message "Missing new line after list item"
               (AtRange (end_ (Some item)) (start next))
        else message "Extraneous new line after list item"
               (AtRange (end_ (Some item)) (start next))
      else ret tt
  end.

Definition visitor (blanks : bool) (node : Node) : M unit :=
  let items := children node in
  let indent := column (start (Some node)) in
  if generated node then ret tt
  else
    match items with
    | None => throw TypeError
    | Some items =>
        isTightList <- forEach (infer blanks) items true ;;
        let type := if isTightList then "tight" else "loose" in
        forEach (warn items indent isTightList type) items tt
    end.

Definition listItemSpacing (preferred : value) : M unit :=
  blanks <- lift (blanks_of preferred) ;;
  ast <- get_tree ;;
  visit ast "list" (visitor blanks).

End ListItemSpacing.

(** ** Models of the external text utilities, for the documented examples *)

(** Modelled from the spec: the plain-text flattening utility, external to
    the rule: the text of a text node, the alt text of an image, and
    otherwise the concatenation of the flattened children. *)
Fixpoint flatten_text (node : Node) : string :=
  match node with
  | mkNode _ (Some text) _ _ _ _ => text
  | mkNode _ None (Some alt) _ _ _ => alt
  | mkNode _ None None _ _ (Some kids) => String.concat "" (map flatten_text kids)
  | mkNode _ None None _ _ None => ""
  end.

(** The number-to-string conversion on the integral numbers written with
    a non-negative exponent: their decimal digits. The other finite
    numbers are left out of this model (they print as the empty string
    here); the theorems do not depend on it. *)
Definition integral_to_string (n : number) : string :=
  match n with
  | S754_nan => "NaN"
  | S754_infinity negative => if negative then "-Infinity" else "Infinity"
  | S754_zero _ => "0"
  | S754_finite negative m e =>
      if 0 <=? e
      then (if negative then "-" else "")
           ++ NilZero.string_of_uint (N.to_uint (Z.to_N (Z.pos m * 2 ^ e)))
      else ""
  end.

(** ** The documented examples as trees *)

Module Samples.

Definition at_ (l c : Z) : Point := mkPoint (Some l) (Some c).

Definition span (l1 c1 l2 c2 : Z) : option Position :=
  Some (mkPosition (Some (at_ l1 c1)) (Some (at_ l2 c2))).

Definition text (s : string) (pos : option Position) : Node :=
  mkNode "text" (Some s) None None pos None.

Definition parent (ty : string) (pos : option Position) (kids : list Node)
  : Node :=
  mkNode ty None None None pos (Some kids).

(** [# Alpha bravo charlie delta echo foxtrot golf hotel] *)
Definition alpha : string :=
  "Alpha bravo charlie delta echo foxtrot golf hotel".

Definition heading : Node :=
  parent "heading" (span 1 1 1 52) [text alpha (span 1 3 1 52)].

Definition heading_doc : Node := parent "root" (span 1 1 1 52) [heading].

(** A heading of 68 characters. *)
Definition long_heading : Node :=
  parent "heading" (span 1 1 1 71)
    [text (alpha ++ " india juliett kilo") (span 1 3 1 71)].

(** The same heading without a position. *)
Definition heading_generated : Node :=
  parent "heading" None [text alpha None].

(** A paragraph of one text. *)
Definition paragraph (s : string) (l1 c1 l2 c2 : Z) : Node :=
  parent "paragraph" (span l1 c1 l2 c2) [text s (span l1 c1 l2 c2)].

(** The first list of [invalid.md]: a wrapped first item, no blank line
    between the items (lines 3 to 6). *)
Definition wrapped_items : list Node :=
  [parent "listItem" (span 3 1 4 9) [paragraph "Wrapped item" 3 5 4 9];
   parent "listItem" (span 5 1 5 11) [paragraph "item 2" 5 5 5 11];
   parent "listItem" (span 6 1 6 11) [paragraph "item 3" 6 5 6 11]].

Definition wrapped_tight : Node :=
  parent "list" (span 3 1 6 11) wrapped_items.

(** The second list of [invalid.md]: one-line items with a blank line
    after each (lines 10 to 14); the parser ends such an item at the
    start of the blank line's successor. *)
Definition short_loose : Node :=
  parent "list" (span 10 1 14 11)
    [parent "listItem" (span 10 1 11 1) [paragraph "item 1" 10 5 10 11];
     parent "listItem" (span 12 1 13 1) [paragraph "item 2" 12 5 12 11];
     parent "listItem" (span 14 1 14 11) [paragraph "item 3" 14 5 14 11]].

Definition invalid_doc : Node :=
  parent "root" (span 1 1 14 11)
    [paragraph "A tight list:" 1 1 1 14; wrapped_tight;
     paragraph "A loose list:" 8 1 8 14; short_loose].

(** An item holding a paragraph and, on the next line, a nested list:
    two lines, no blank line inside (the tight list of the [checkBlanks]
    example). *)
Definition nested_item : Node :=
  parent "listItem" (span 3 1 4 15)
    [paragraph "item 1" 3 5 3 11;
     parent "list" (span 4 5 4 15)
       [parent "listItem" (span 4 5 4 15) [paragraph "item 1.A" 4 7 4 15]]].

Definition nested_list : Node :=
  parent "list" (span 3 1 5 11)
    [nested_item;
     parent "listItem" (span 5 1 5 11) [paragraph "item 2" 5 5 5 11]].

(** A list item with an empty array of children. *)
Definition empty_item : Node := parent "listItem" (span 1 1 1 2) [].

(** A list of one item. *)
Definition single_item : Node :=
  parent "listItem" (span 3 1 4 9) [paragraph "Wrapped item" 3 5 4 9].

Definition single : Node := parent "list" (span 3 1 4 9) [single_item].

(** A list without a position. *)
Definition list_generated : Node :=
  parent "list" None
    [parent "listItem" (span 3 1 4 9) [paragraph "Wrapped item" 3 5 4 9];
     parent "listItem" (span 5 1 5 11) [paragraph "item 2" 5 5 5 11]].

(** An item holding a paragraph, a blank line, and a nested list: the
    loose list of the [checkBlanks] example (lines 10 to 12). *)
Definition blank_item : Node :=
  parent "listItem" (span 10 1 13 1)
    [paragraph "item 1" 10 5 10 11;
     parent "list" (span 12 5 12 15)
       [parent "listItem" (span 12 5 12 15) [paragraph "item 1.A" 12 7 12 15]]].

(** A list item without a position, as a transform would insert it. *)
Definition inserted_item : Node :=
  parent "listItem" None [parent "paragraph" None [text "new" None]].

(** A positioned list of single-line items with an inserted one first. *)
Definition inserted_list : Node :=
  parent "list" (span 3 1 4 11)
    [inserted_item;
     parent "listItem" (span 3 1 3 11) [paragraph "item 2" 3 5 3 11];
     parent "listItem" (span 4 1 4 11) [paragraph "item 3" 4 5 4 11]].

(** A list node that lost its array of children, after a well-formed
    list, in one document. *)
Definition broken_doc : Node :=
  parent "root" (span 1 1 14 11)
    [wrapped_tight;
     mkNode "list" None None None (span 8 1 8 2) None;
     short_loose].

Definition forty : number := number_of_nat 40.
Definition infinity : number := S754_infinity false.

Definition check_blanks : value := VObject [("checkBlanks", VBoolean true)].

Definition world_of (root : Node) : World := mkWorld root [].

End Samples.

(** ** Vocabulary of the statements *)

(** A computation whose only effect is to append messages to the file. *)
Definition emits_only {A : Type} (m : M A) : Prop :=
  forall w, exists extra, snd (m w) = reported w extra.

(** A computation that leaves the world as it found it. *)
Definition silent {A : Type} (m : M A) : Prop :=
  forall w, snd (m w) = w.

(** The threshold as the documentation words it: the option when it is a
    finite number, 60 otherwise. *)
Definition threshold_as_specified (option : value) : number :=
  match option with
  | VNumber n => if is_finite_number n then n else sixty
  | _ => sixty
  end.

(** The tightness observed at the boundary after [item] in the list
    [node]: the end column of the item is greater than the start column of
    the list. *)
Definition observed_tight (node item : Node) : bool :=
  to_number (column (end_ (Some item)))
  >? to_number (column (start (Some node))).

(** The message, if any, for the boundary between [item] and [next] in a
    list classified [isTightList]. *)
Definition boundary_messages (node : Node) (isTightList : bool)
  (boundary : Node * Node) : list Message :=
  let (item, next) := boundary in
  if Bool.eqb (observed_tight node item) isTightList then []
  else [mkMessage
          (if isTightList then "Extraneous new line after list item"
           else "Missing new line after list item")
          (AtRange (end_ (Some item)) (start (Some next)))].

(** The start line of [head] and the end line of [tail], as numbers. *)
Definition start_line (head : Node) : Z := to_number (line (start (Some head))).
Definition end_line (tail : Node) : Z := to_number (line (end_ (Some tail))).

(** The nodes of one type in document order: what [visit] walks. *)
Definition nodes_of_type (test : string) (root : Node) : list Node :=
  filter (fun node => String.eqb (type node) test) (preorder root).

(** The messages a visitor reports on a node when run on its own, the
    file being empty. *)
Definition emitted (visitor : Node -> M unit) (node : Node) : list Message :=
  messages (snd (visitor node (mkWorld node []))).

(** The messages a computation added to the file. *)
Definition new_messages {A : Type} (m : M A) (w : World) : list Message :=
  skipn (List.length (messages w)) (messages (snd (m w))).

Definition has_children (node : Node) : bool :=
  match children node with
  | Some _ => true
  | None => false
  end.

(** A list node the list visitor gets through: it is generated, or it has
    an array of items that each have an array of children. *)
Definition well_formed_list (node : Node) : bool :=
  generated node
  || match children node with
     | Some items => forallb has_children items
     | None => false
     end.

(** A number below zero. *)
Definition is_negative (p : number) : bool :=
  match p with
  | S754_infinity negative => negative
  | S754_finite negative _ _ => negative
  | S754_zero _ | S754_nan => false
  end.

(** The message of the heading rule for a node. *)
Definition heading_message (number_to_string : number -> string)
  (preferred : number) (node : Node) : Message :=
  mkMessage ("Use headings shorter than `"
             ++ number_to_string preferred ++ "`") (AtNode node).

(** Children in source order: each starts no later than it ends, and ends
    no later than its successor starts. *)
Fixpoint ordered (content : list Node) : bool :=
  match content with
  | [] => true
  | child :: rest =>
      (start_line child <=? end_line child)
      && match rest with
         | [] => true
         | next :: _ => end_line child <=? start_line next
         end
      && ordered rest
  end.

(** A computation whose outcome and new messages do not depend on the
    world it starts from. *)
Definition uniform {A : Type} (m : M A) : Prop :=
  exists outcome extra, forall w, m w = (outcome, reported w extra).

(** ** Laws of the rule monad *)

Lemma reported_nil (w : World) : reported w [] = w.
Proof. destruct w; unfold reported; simpl; now rewrite app_nil_r. Qed.

Lemma reported_app (w : World) (a b : list Message) :
  reported (reported w a) b = reported w (a ++ b).
Proof. unfold reported; simpl; now rewrite app_assoc. Qed.

Lemma message_run (r : string) (p : Place) (w : World) :
  message r p w = (Returned tt, reported w [mkMessage r p]).
Proof. reflexivity. Qed.

Lemma bind_returned {A B : Type} (m : M A) (f : A -> M B) (w w' : World) (a : A) :
  m w = (Returned a, w') -> bind m f w = f a w'.
Proof. intros H; unfold bind; now rewrite H. Qed.

Lemma bind_thrown {A B : Type} (m : M A) (f : A -> M B) (w w' : World) (e : Error) :
  m w = (Thrown e, w') -> bind m f w = (Thrown e, w').
Proof. intros H; unfold bind; now rewrite H. Qed.

Lemma silent_ret {A : Type} (a : A) : silent (ret a).
Proof. now intros w. Qed.

Lemma silent_throw {A : Type} (e : Error) : silent (@throw A e).
Proof. now intros w. Qed.

Lemma silent_lift {A : Type} (o : Outcome A) : silent (lift o).
Proof. now intros w. Qed.

Lemma silent_get_tree : silent get_tree.
Proof. now intros w. Qed.

Lemma silent_bind {A B : Type} (m : M A) (f : A -> M B) :
  silent m -> (forall a, silent (f a)) -> silent (bind m f).
Proof.
  intros Hm Hf w. unfold bind. specialize (Hm w).
  destruct (m w) as [[a | e] w']; simpl in Hm; subst w'.
  - apply Hf.
  - reflexivity.
Qed.

Lemma silent_emits_only {A : Type} (m : M A) : silent m -> emits_only m.
Proof. intros H w. exists []. now rewrite H, reported_nil. Qed.

Lemma emits_only_message (r : string) (p : Place) : emits_only (message r p).
Proof. intros w. now exists [mkMessage r p]. Qed.

Lemma emits_only_bind {A B : Type} (m : M A) (f : A -> M B) :
  emits_only m -> (forall a, emits_only (f a)) -> emits_only (bind m f).
Proof.
  intros Hm Hf w. unfold bind. destruct (Hm w) as [e1 H1].
  destruct (m w) as [[a | e] w']; simpl in H1; subst w'.
  - destruct (Hf a (reported w e1)) as [e2 H2].
    exists (e1 ++ e2)%list. now rewrite H2, reported_app.
  - now exists e1.
Qed.

Lemma emits_only_forEach_from {A L : Type} (callback : A -> nat -> L -> M L) :
  (forall x i l, emits_only (callback x i l)) ->
  forall array index locals, emits_only (forEach_from callback index array locals).
Proof.
  intros Hc array. induction array as [| x rest IH]; intros index locals; simpl.
  - apply silent_emits_only, silent_ret.
  - apply emits_only_bind; [apply Hc | intros l; apply IH].
Qed.

Lemma emits_only_visit (root : Node) (test : string) (visitor : Node -> M unit) :
  (forall node, emits_only (visitor node)) -> emits_only (visit root test visitor).
Proof.
  intros Hv. unfold visit, forEach.
  apply emits_only_forEach_from. intros x i l. apply Hv.
Qed.

Lemma emits_only_tree {A : Type} (m : M A) (w : World) :
  emits_only m -> tree (snd (m w)) = tree w.
Proof. intros H. destruct (H w) as [extra E]. now rewrite E. Qed.

(** ** Option handling *)

Lemma typeof_number (v : value) :
  typeof v = "number" <-> exists n, v = VNumber n.
Proof.
  split.
  - destruct v; simpl; intros H; try discriminate. now exists n.
  - intros [n ->]. reflexivity.
Qed.

Lemma preferred_of_not_NaN (option : value) : isNaN (preferred_of option) = false.
Proof.
  destruct option as [| | b | n | s | props | props]; try reflexivity.
  simpl. destruct (isNaN n) eqn:E; simpl; [reflexivity | exact E].
Qed.

Lemma length_gt_le (len : nat) (p : number) :
  isNaN p = false -> length_gt len p = negb (length_le len p).
Proof.
  destruct p as [s | s | | s m e]; simpl; intros H.
  - apply Z.ltb_antisym.
  - now destruct s.
  - discriminate.
  - destruct s; [reflexivity |].
    destruct (0 <=? e); apply Z.ltb_antisym.
Qed.

(** C4, as amended. The threshold the heading rule resolves is the option
    itself whenever the option is a number other than NaN, the two
    infinities included, and 60 for every other option; it is the
    threshold of the documentation for every option but the infinities. *)
Theorem preferred_of_resolution (option : value) :
  (forall n, option = VNumber n -> isNaN n = false -> preferred_of option = n)
  /\ ((forall n, option = VNumber n -> isNaN n = true) ->
      preferred_of option = sixty)
  /\ ((forall negative, option <> VNumber (S754_infinity negative)) ->
      preferred_of option = threshold_as_specified option).
Proof.
  split; [| split].
  - intros n -> H. simpl. now rewrite H.
  - intros H. destruct option as [| | b | n | s | props | props]; try reflexivity.
    simpl. now rewrite (H n eq_refl).
  - intros H. destruct option as [| | b | n | s | props | props]; try reflexivity.
    destruct n as [s | s | | s m e]; try reflexivity.
    now elim (H s).
Qed.

(** C4, the claim as worded fails at the option [Infinity]: it is not a
    finite number, so the documentation promises 60, and the rule keeps
    [Infinity] as its threshold; a heading of 68 characters, reported
    under the threshold 60, is then not reported. *)
Lemma preferred_of_infinity :
  is_finite_number Samples.infinity = false
  /\ threshold_as_specified (VNumber Samples.infinity) = sixty
  /\ preferred_of (VNumber Samples.infinity) = Samples.infinity
  /\ Samples.infinity <> sixty
  /\ String.length (flatten_text Samples.long_heading) = 68%nat
  /\ MaximumHeadingLength.visitor flatten_text integral_to_string
       (preferred_of (VNumber Samples.infinity)) Samples.long_heading
       (Samples.world_of Samples.long_heading)
     = (Returned tt, Samples.world_of Samples.long_heading)
  /\ MaximumHeadingLength.visitor flatten_text integral_to_string
       (threshold_as_specified (VNumber Samples.infinity)) Samples.long_heading
       (Samples.world_of Samples.long_heading)
     = (Returned tt,
        reported (Samples.world_of Samples.long_heading)
          [mkMessage "Use headings shorter than `60`"
                     (AtNode Samples.long_heading)]).
Proof. repeat split; try reflexivity; discriminate. Qed.

(** The absent, the non-numeric and the NaN option all resolve to 60. *)
Example preferred_of_defaults :
  preferred_of VUndefined = sixty
  /\ preferred_of (VString "40") = sixty
  /\ preferred_of (VNumber S754_nan) = sixty
  /\ preferred_of (VNumber Samples.forty) = Samples.forty.
Proof. repeat split. Qed.

Lemma lookup_checkBlanks_truthy (preferred : value) (b : bool) :
  blanks_of preferred = Returned b ->
  (b = true <->
   exists props v, preferred = VObject props
                   /\ lookup props "checkBlanks" = Some v /\ truthy v = true).
Proof.
  intros H; split.
  - intros ->.
    destruct preferred as [| | b | n | s | props | props];
      try (cbv in H; discriminate H).
    + destruct b; cbv in H; discriminate H.
    + destruct n as [z | i | | sg m e]; cbv in H; discriminate H.
    + destruct s; cbv in H; discriminate H.
    + unfold blanks_of in H; simpl in H.
      destruct (lookup props "checkBlanks") as [v |] eqn:L.
      * exists props, v. repeat split; congruence.
      * discriminate H.
  - intros (props & v & -> & L & T).
    unfold blanks_of in H; simpl in H. rewrite L in H. congruence.
Qed.

(** C7. For every option of the list rule the computation of the
    blank-line mode returns and does not throw; the mode is on exactly
    when the option is an object whose [checkBlanks] property is truthy,
    and the rule then runs the list visitor in that mode: with any other
    option it runs in the default mode. *)
Theorem blanks_of_total (preferred : value) :
  exists blanks,
    blanks_of preferred = Returned blanks
    /\ (blanks = true <->
        exists props v, preferred = VObject props
                        /\ lookup props "checkBlanks" = Some v
                        /\ truthy v = true)
    /\ forall w,
        ListItemSpacing.listItemSpacing preferred w
        = visit (tree w) "list" (ListItemSpacing.visitor blanks) w.
Proof.
  assert (T : exists blanks, blanks_of preferred = Returned blanks).
  { destruct preferred as [| | b | n | s | props | props];
      try (eexists; reflexivity).
    - destruct b; eexists; reflexivity.
    - destruct n as [z | i | | sg m e]; eexists; reflexivity.
    - destruct s; eexists; reflexivity.
    - unfold blanks_of; simpl.
      destruct (lookup props "checkBlanks"); eexists; reflexivity. }
  destruct T as [blanks E]. exists blanks. split; [exact E | split].
  - now apply lookup_checkBlanks_truthy.
  - intros w. unfold ListItemSpacing.listItemSpacing, lift, bind.
    rewrite E. reflexivity.
Qed.

(** Options of every dynamic type; only the last two turn the mode on. *)
Example blanks_of_samples :
  map blanks_of
    [VUndefined; VNull; VBoolean true; VNumber Samples.forty; VString "x";
     VObject []; VObject [("checkBlanks", VBoolean false)];
     VFunction [("checkBlanks", VBoolean true)];
     Samples.check_blanks; VObject [("checkBlanks", VString "yes")]]
  = map Returned
      [false; false; false; false; false; false; false; false; true; true].
Proof. reflexivity. Qed.

(** ** The heading rule *)

Section HeadingRule.

Variable toString : Node -> string.
Variable number_to_string : number -> string.

(** The messages of one heading, as a list. *)
Lemma heading_visitor_run (preferred : number) (node : Node) (w : World) :
  MaximumHeadingLength.visitor toString number_to_string preferred node w
  = (Returned tt,
     reported w
       (if negb (generated node)
           && length_gt (String.length (toString node)) preferred
        then [mkMessage ("Use headings shorter than `"
                         ++ number_to_string preferred ++ "`") (AtNode node)]
        else [])).
Proof.
  unfold MaximumHeadingLength.visitor.
  destruct (negb (generated node)
            && length_gt (String.length (toString node)) preferred).
  - apply message_run.
  - unfold ret. now rewrite reported_nil.
Qed.

(** C3. On a heading that is not generated the visitor of the heading
    rule compares the length of the flattened text with the resolved
    threshold: the length is either at most the threshold or greater; in
    the first case nothing is reported, in the second exactly one
    message, "Use headings shorter than `<threshold>`", anchored at the
    node, that is at the range from its start to its end. *)
Theorem heading_visitor_spec (option : value) (node : Node) (w : World) :
  generated node = false ->
  let preferred := preferred_of option in
  let len := String.length (toString node) in
  length_gt len preferred = negb (length_le len preferred)
  /\ (length_le len preferred = true ->
      MaximumHeadingLength.visitor toString number_to_string preferred node w
      = (Returned tt, w))
  /\ (length_gt len preferred = true ->
      MaximumHeadingLength.visitor toString number_to_string preferred node w
      = (Returned tt,
         reported w
           [mkMessage ("Use headings shorter than `"
                       ++ number_to_string preferred ++ "`") (AtNode node)])
      /\ range_of (AtNode node) = (start (Some node), end_ (Some node))).
Proof.
  intros G preferred len.
  assert (E : length_gt len preferred = negb (length_le len preferred))
    by apply length_gt_le, preferred_of_not_NaN.
  split; [exact E | split].
  - intros Hle. rewrite heading_visitor_run. fold len.
    rewrite E, Hle, andb_false_r. now rewrite reported_nil.
  - intros Hgt. split; [| reflexivity].
    rewrite heading_visitor_run. fold len. now rewrite G, Hgt.
Qed.

Lemma emits_only_heading_visitor (preferred : number) (node : Node) :
  emits_only
    (MaximumHeadingLength.visitor toString number_to_string preferred node).
Proof. intros w. rewrite heading_visitor_run. eexists; reflexivity. Qed.

End HeadingRule.

(** ** The list rule: inference *)

Import ListItemSpacing.

Lemma inferMultiline_run (item : Node) (content : list Node) (w : World) :
  children item = Some content ->
  inferMultiline item w
  = (Returned
       (to_number (line (end_ (at_index content (Z.of_nat (List.length content) - 1))))
        - to_number (line (start (at_index content 0))) >? 0), w).
Proof. intros H. unfold inferMultiline. now rewrite H. Qed.

Lemma at_index_last {A : Type} (front : list A) (tail : A) :
  at_index (front ++ [tail]) (Z.of_nat (List.length (front ++ [tail])) - 1)
  = Some tail.
Proof.
  unfold at_index. rewrite length_app. simpl.
  destruct (Z.ltb_spec (Z.of_nat (List.length front + 1) - 1) 0) as [H | H];
    [lia |].
  replace (Z.to_nat (Z.of_nat (List.length front + 1) - 1))
    with (List.length front) by lia.
  rewrite nth_error_app2 by lia. now rewrite Nat.sub_diag.
Qed.

Lemma inferMultiline_true (item : Node) (content : list Node) (w : World) :
  children item = Some content ->
  (inferMultiline item w = (Returned true, w) <->
   exists head rest front tail,
     content = head :: rest /\ content = (front ++ [tail])%list
     /\ end_line tail > start_line head).
Proof.
  intros H. rewrite (inferMultiline_run item content w H). split.
  - intros E.
    assert (G : (to_number (line (end_ (at_index content
                   (Z.of_nat (List.length content) - 1))))
                 - to_number (line (start (at_index content 0))) >? 0) = true)
      by congruence.
    clear E. destruct content as [| head rest]; [discriminate G |].
    destruct (exists_last (l := head :: rest)) as (front & tail & L);
      [discriminate |].
    exists head, rest, front, tail. repeat split; [exact L |].
    assert (T : at_index (head :: rest)
                  (Z.of_nat (List.length (head :: rest)) - 1) = Some tail)
      by (rewrite L; apply at_index_last).
    rewrite T in G. change (at_index (head :: rest) 0) with (Some head) in G.
    unfold end_line, start_line. apply Z.gtb_lt in G. lia.
  - intros (head & rest & front & tail & E1 & E2 & G).
    assert (T : at_index content (Z.of_nat (List.length content) - 1)
                = Some tail)
      by (rewrite E2; apply at_index_last).
    rewrite T. rewrite E1. change (at_index (head :: rest) 0) with (Some head).
    unfold end_line, start_line in G.
    f_equal. f_equal. apply Z.gtb_lt. lia.
Qed.

Lemma inferBlankLine_loop_spec (content : list Node) :
  forall fuel index,
    (List.length content <= index + fuel)%nat -> (0 < fuel)%nat ->
    exists b,
      inferBlankLine_loop fuel content index (nth_error content index) = Some b
      /\ (b = true <->
          exists i child next,
            (index <= i)%nat
            /\ nth_error content i = Some child
            /\ nth_error content (S i) = Some next
            /\ start_line next - end_line child > 1).
Proof.
  induction fuel as [| fuel IH]; intros index Hfuel Hpos; [lia |].
  cbn [inferBlankLine_loop]. destruct (Nat.ltb_spec (S index) (List.length content)) as [Hlt | Hge].
  - destruct (nth_error content (S index)) as [nx |] eqn:En;
      [| apply nth_error_None in En; lia].
    destruct (nth_error content index) as [ch |] eqn:Ec;
      [| apply nth_error_None in Ec; lia].
    destruct (to_number (line (start (Some nx)))
              - to_number (line (end_ (Some ch))) >? 1) eqn:Egap.
    + exists true. split; [reflexivity |]. split; [| reflexivity].
      intros _. exists index, ch, nx. repeat split; try assumption; try lia.
      unfold start_line, end_line. apply Z.gtb_lt in Egap. lia.
    + destruct (IH (S index)) as (b & Hb & Hiff); try lia.
      rewrite En in Hb. exists b. split; [exact Hb |].
      rewrite Hiff. split.
      * intros (i & child & next & Hi & H1 & H2 & H3).
        exists i, child, next. repeat split; try assumption; lia.
      * intros (i & child & next & Hi & H1 & H2 & H3).
        destruct (Nat.eq_dec i index) as [-> | Hne].
        -- rewrite Ec in H1. rewrite En in H2.
           injection H1 as <-. injection H2 as <-.
           unfold start_line, end_line in H3.
           assert ((to_number (line (start (Some nx)))
                    - to_number (line (end_ (Some ch))) >? 1) = true)
             by (apply Z.gtb_lt; lia).
           congruence.
        -- exists i, child, next. repeat split; try assumption; lia.
  - exists false. split; [reflexivity |]. split; [discriminate |].
    intros (i & child & next & Hi & H1 & H2 & H3).
    assert (S i < List.length content)%nat
      by (apply nth_error_Some; congruence).
    lia.
Qed.

Lemma inferBlankLine_run (item : Node) (content : list Node) (w : World) :
  children item = Some content ->
  exists b,
    inferBlankLine item w = (Returned b, w)
    /\ (b = true <->
        exists i child next,
          nth_error content i = Some child
          /\ nth_error content (S i) = Some next
          /\ start_line next - end_line child > 1).
Proof.
  intros H. unfold inferBlankLine. rewrite H.
  destruct (inferBlankLine_loop_spec content (S (List.length content)) 0)
    as (b & Hb & Hiff); try lia.
  exists b. rewrite Hb. split; [reflexivity |].
  rewrite Hiff. split.
  - intros (i & child & next & _ & H1 & H2 & H3). now exists i, child, next.
  - intros (i & child & next & H1 & H2 & H3).
    exists i, child, next. repeat split; try assumption; lia.
Qed.

(** The predicate the inference phase applies in a given mode. *)
Lemma active_predicate_total (blanks : bool) (item : Node) (w : World) :
  children item <> None ->
  exists b,
    (if blanks then inferBlankLine else inferMultiline) item w = (Returned b, w).
Proof.
  intros H. destruct (children item) as [content |] eqn:E; [| now elim H].
  destruct blanks.
  - destruct (inferBlankLine_run item content w E) as (b & Hb & _).
    now exists b.
  - rewrite (inferMultiline_run item content w E). eexists; reflexivity.
Qed.

Lemma silent_active_predicate (blanks : bool) (item : Node) :
  silent ((if blanks then inferBlankLine else inferMultiline) item).
Proof.
  intros w. destruct blanks.
  - unfold inferBlankLine. destruct (children item) as [content |];
      [| reflexivity].
    now destruct (inferBlankLine_loop _ _ _ _).
  - unfold inferMultiline. now destruct (children item).
Qed.

Lemma silent_infer (blanks : bool) (item : Node) (index : nat) (t : bool) :
  silent (infer blanks item index t).
Proof.
  unfold infer. apply silent_bind.
  - apply silent_active_predicate.
  - intros []; apply silent_ret.
Qed.

Lemma infer_run (blanks : bool) (item : Node) (index : nat) (t b : bool)
  (w : World) :
  (if blanks then inferBlankLine else inferMultiline) item w = (Returned b, w) ->
  infer blanks item index t w = (Returned (if b then false else t), w).
Proof.
  intros H. unfold infer. rewrite (bind_returned _ _ _ _ _ H).
  now destruct b.
Qed.

Lemma infer_phase (blanks : bool) (items : list Node) (w : World) :
  Forall (fun item => children item <> None) items ->
  forall index t,
  exists t',
    forEach_from (infer blanks) index items t w = (Returned t', w)
    /\ (t' = false <->
        t = false
        \/ exists item,
             In item items
             /\ (if blanks then inferBlankLine else inferMultiline) item w
                = (Returned true, w)).
Proof.
  induction 1 as [| item rest Hitem Hrest IH]; intros index t.
  - exists t. split; [reflexivity |]. split; [now left |].
    intros [H | (item & [] & _)]; exact H.
  - destruct (active_predicate_total blanks item w Hitem) as [b Hb].
    destruct (IH (S index) (if b then false else t)) as (t' & Hrun & Hiff).
    exists t'. split.
    + cbn [forEach_from].
      rewrite (bind_returned _ _ _ _ _ (infer_run blanks item index t b w Hb)).
      exact Hrun.
    + rewrite Hiff. split.
      * intros [H | (x & Hin & Hx)].
        -- destruct b.
           ++ right. exists item. split; [now left | exact Hb].
           ++ now left.
        -- right. exists x. split; [now right | exact Hx].
      * intros [H | (x & [<- | Hin] & Hx)].
        -- left. subst t. now destruct b.
        -- left. rewrite Hb in Hx. injection Hx as ->. reflexivity.
        -- right. now exists x.
Qed.

(** ** The list rule: verification *)

Lemma boundary_messages_In (node : Node) (t : bool) (item next : Node)
  (m : Message) :
  In m (boundary_messages node t (item, next)) <->
  observed_tight node item <> t
  /\ m = mkMessage
           (if t then "Extraneous new line after list item"
            else "Missing new line after list item")
           (AtRange (end_ (Some item)) (start (Some next))).
Proof.
  unfold boundary_messages.
  destruct (Bool.eqb (observed_tight node item) t) eqn:E.
  - apply eqb_prop in E. split; [intros [] | intros [H _]; now elim H].
  - apply eqb_false_iff in E. simpl. split.
    + intros [<- | []]. now split.
    + intros [_ ->]. now left.
Qed.

Lemma warn_run (node : Node) (items : list Node) (t : bool) (item : Node)
  (index : nat) (w : World) :
  warn items (column (start (Some node))) t (if t then "tight" else "loose")
       item index tt w
  = (Returned tt,
     reported w
       match nth_error items (index + 1) with
       | Some next => boundary_messages node t (item, next)
       | None => []
       end).
Proof.
  unfold warn. destruct (nth_error items (index + 1)) as [next |].
  - unfold boundary_messages. fold (observed_tight node item).
    destruct (Bool.eqb (observed_tight node item) t); simpl.
    + unfold ret. now rewrite reported_nil.
    + destruct t; apply message_run.
  - unfold ret. now rewrite reported_nil.
Qed.

Lemma warn_phase (node : Node) (items : list Node) (t : bool) :
  forall suffix front w,
    items = (front ++ suffix)%list ->
    forEach_from
      (warn items (column (start (Some node))) t (if t then "tight" else "loose"))
      (List.length front) suffix tt w
    = (Returned tt,
       reported w
         (flat_map (boundary_messages node t) (combine suffix (tl suffix)))).
Proof.
  induction suffix as [| item rest IH]; intros front w E.
  - simpl. unfold ret. now rewrite reported_nil.
  - cbn [forEach_from].
    rewrite (bind_returned _ _ _ _ _ (warn_run node items t item _ w)).
    replace (S (List.length front)) with (List.length (front ++ [item])%list)
      by (rewrite length_app; simpl; lia).
    rewrite IH by (rewrite <- app_assoc; exact E).
    rewrite reported_app. f_equal. f_equal.
    assert (N : nth_error items (List.length front + 1) = nth_error rest 0).
    { rewrite E. rewrite nth_error_app2 by lia.
      replace (List.length front + 1 - List.length front)%nat with 1%nat by lia.
      reflexivity. }
    rewrite N. destruct rest as [| next rest']; reflexivity.
Qed.

Lemma emits_only_list_visitor (blanks : bool) (node : Node) :
  emits_only (visitor blanks node).
Proof.
  unfold visitor. destruct (generated node).
  - apply silent_emits_only, silent_ret.
  - destruct (children node) as [items |].
    + apply emits_only_bind.
      * apply emits_only_forEach_from. intros x i l.
        apply silent_emits_only, silent_infer.
      * intros t. apply emits_only_forEach_from. intros x i [] w.
        rewrite warn_run. eexists; reflexivity.
    + apply silent_emits_only, silent_throw.
Qed.

Lemma nth_error_boundaries (items : list Node) :
  forall i item next,
    nth_error (combine items (tl items)) i = Some (item, next) <->
    nth_error items i = Some item /\ nth_error items (S i) = Some next.
Proof.
  induction items as [| x rest IH]; intros i item next.
  - destruct i; simpl; split; try discriminate; intros [H _]; discriminate H.
  - destruct rest as [| y rest'].
    + destruct i as [| [| i]]; simpl; split; try discriminate;
        intros [_ H]; discriminate H.
    + destruct i as [| i].
      * simpl. split.
        -- intros H. injection H as -> ->. now split.
        -- intros [H1 H2]. congruence.
      * apply (IH i item next).
Qed.

(** ** The claims about the list rule *)

(** C1. On a list that is not generated, once the inference phase has
    classified the list, the visitor reports for each pair of an item and
    its successor, in order, and for nothing else; so nothing is reported
    after the last item. At such a boundary the item is observed tight
    exactly when its end column is greater than the start column of the
    list; a message is reported if and only if that differs from the
    classification of the list, at most one, reading "Missing new line
    after list item" in a loose list and "Extraneous new line after list
    item" in a tight one, with the range from the end of the item to the
    start of its successor. *)
Theorem verification_phase (blanks : bool) (node : Node) (items : list Node)
  (isTightList : bool) (w : World) :
  generated node = false ->
  children node = Some items ->
  forEach (infer blanks) items true w = (Returned isTightList, w) ->
  visitor blanks node w
  = (Returned tt,
     reported w
       (flat_map (boundary_messages node isTightList)
                 (combine items (tl items))))
  /\ (forall i item next,
        nth_error (combine items (tl items)) i = Some (item, next) <->
        nth_error items i = Some item /\ nth_error items (S i) = Some next)
  /\ (forall item,
        observed_tight node item = true <->
        to_number (column (end_ (Some item)))
        > to_number (column (start (Some node))))
  /\ (forall item next m,
        In m (boundary_messages node isTightList (item, next)) <->
        observed_tight node item <> isTightList
        /\ m = mkMessage
                 (if isTightList then "Extraneous new line after list item"
                  else "Missing new line after list item")
                 (AtRange (end_ (Some item)) (start (Some next))))
  /\ (forall item next,
        (List.length (boundary_messages node isTightList (item, next)) <= 1)%nat).
Proof.
  intros G C I. split; [| split; [| split; [| split]]].
  - unfold visitor. rewrite G, C.
    rewrite (bind_returned _ _ _ _ _ I).
    apply (warn_phase node items isTightList items [] w). reflexivity.
  - apply nth_error_boundaries.
  - intros item. unfold observed_tight. rewrite Z.gtb_lt. lia.
  - intros item next m. apply boundary_messages_In.
  - intros item next. unfold boundary_messages.
    destruct (Bool.eqb (observed_tight node item) isTightList); simpl; lia.
Qed.

(** C2. On a list that is not generated and whose items all have an array
    of children, the inference phase returns one boolean, which is false
    (the list is loose) if and only if the predicate of the mode holds of
    at least one item; the visitor checks every boundary against that
    boolean. In the default mode the predicate holds of an item exactly when
    the end line of its last child is greater than the start line of its
    first child. *)
Theorem inference_phase (blanks : bool) (node : Node) (items : list Node)
  (w : World) :
  generated node = false ->
  children node = Some items ->
  Forall (fun item => children item <> None) items ->
  exists isTightList,
    forEach (infer blanks) items true w = (Returned isTightList, w)
    /\ (isTightList = false <->
        exists item,
          In item items
          /\ (if blanks then inferBlankLine else inferMultiline) item w
             = (Returned true, w))
    /\ visitor blanks node w
       = forEach (warn items (column (start (Some node))) isTightList
                       (if isTightList then "tight" else "loose"))
                 items tt w
    /\ (forall item content,
          children item = Some content ->
          (inferMultiline item w = (Returned true, w) <->
           exists head rest front tail,
             content = head :: rest /\ content = (front ++ [tail])%list
             /\ end_line tail > start_line head)).
Proof.
  intros G C F.
  destruct (infer_phase blanks items w F 0%nat true) as (t & Hrun & Hiff).
  exists t. split; [exact Hrun | split; [| split]].
  - rewrite Hiff. split.
    + intros [H | H]; [discriminate H | exact H].
    + intros H. now right.
  - unfold visitor. rewrite G, C.
    now rewrite (bind_returned _ _ _ _ _ Hrun).
  - intros item content. apply inferMultiline_true.
Qed.

(** C6. In blank-line mode the predicate of an item with children returns,
    and returns true if and only if some child and its successor are more
    than one line apart (start line of the successor minus end line of
    the child greater than 1); [infer] then applies this predicate and
    not the multiline one; and some list is loose by the multiline
    predicate and tight by the blank-line predicate. *)
Theorem inferBlankLine_spec (item : Node) (content : list Node) (w : World) :
  children item = Some content ->
  (exists b, inferBlankLine item w = (Returned b, w))
  /\ (inferBlankLine item w = (Returned true, w) <->
      exists i child next,
        nth_error content i = Some child
        /\ nth_error content (S i) = Some next
        /\ start_line next - end_line child > 1)
  /\ (forall index t b,
        inferBlankLine item w = (Returned b, w) ->
        infer true item index t w = (Returned (if b then false else t), w))
  /\ (exists items,
        Forall (fun item => children item <> None) items
        /\ forEach (infer false) items true w = (Returned false, w)
        /\ forEach (infer true) items true w = (Returned true, w)).
Proof.
  intros H. destruct (inferBlankLine_run item content w H) as (b & Hb & Hiff).
  split; [now exists b | split; [| split]].
  - rewrite <- Hiff. rewrite Hb. split; congruence.
  - intros index t b' Hb'. now apply infer_run.
  - exists [Samples.nested_item]. split; [| split].
    + constructor; [discriminate | constructor].
    + reflexivity.
    + reflexivity.
Qed.

(** C10. Both predicates return false, and do not throw, on an item whose
    array of children is empty, the position utility giving null
    coordinates for the missing first and last child; such an item leaves
    the classification of the list as it was. *)
Theorem infer_empty_item (item : Node) (w : World) :
  children item = Some [] ->
  inferBlankLine item w = (Returned false, w)
  /\ inferMultiline item w = (Returned false, w)
  /\ start None = mkPoint None None
  /\ end_ None = mkPoint None None
  /\ forall blanks index t, infer blanks item index t w = (Returned t, w).
Proof.
  intros H.
  assert (B : inferBlankLine item w = (Returned false, w))
    by (unfold inferBlankLine; now rewrite H).
  assert (L : inferMultiline item w = (Returned false, w))
    by (unfold inferMultiline; now rewrite H).
  repeat split; try assumption.
  intros blanks index t.
  rewrite (infer_run blanks item index t false w); [reflexivity |].
  now destruct blanks.
Qed.

(** C9. The visitor reports nothing on a list of exactly one item,
    whatever the item holds and whatever the mode: the world after the
    visit is the world before it. *)
Theorem single_item_silent (blanks : bool) (node item : Node) (w : World) :
  children node = Some [item] ->
  snd (visitor blanks node w) = w.
Proof.
  intros C. unfold visitor. rewrite C.
  destruct (generated node); [reflexivity |].
  apply silent_bind.
  - unfold forEach. cbn [forEach_from]. apply silent_bind.
    + apply silent_infer.
    + intros t. apply silent_ret.
  - intros t w'. unfold forEach. cbn [forEach_from].
    rewrite (bind_returned _ _ _ _ _ (warn_run node [item] t item 0 w')).
    simpl. now rewrite reported_nil.
Qed.

(** ** Generated nodes and the frame of the rules *)

(** C5. Neither visitor reports on a generated node: the heading visitor
    returns without a message whatever the text and the threshold, and
    the list visitor returns without a message, and without looking at
    the items, whatever the mode. *)
Theorem generated_node_skipped (toString : Node -> string)
  (number_to_string : number -> string) (preferred : number) (blanks : bool)
  (node : Node) (w : World) :
  generated node = true ->
  MaximumHeadingLength.visitor toString number_to_string preferred node w
  = (Returned tt, w)
  /\ visitor blanks node w = (Returned tt, w).
Proof.
  intros G. split.
  - unfold MaximumHeadingLength.visitor. now rewrite G.
  - unfold visitor. now rewrite G.
Qed.

Lemma emits_only_maximumHeadingLength (toString : Node -> string)
  (number_to_string : number -> string) (option : value) :
  emits_only
    (MaximumHeadingLength.maximumHeadingLength toString number_to_string option).
Proof.
  unfold MaximumHeadingLength.maximumHeadingLength.
  apply emits_only_bind.
  - apply silent_emits_only, silent_get_tree.
  - intros root. apply emits_only_visit. intros node.
    apply emits_only_heading_visitor.
Qed.

Lemma emits_only_listItemSpacing (preferred : value) :
  emits_only (listItemSpacing preferred).
Proof.
  unfold listItemSpacing. apply emits_only_bind.
  - apply silent_emits_only, silent_lift.
  - intros blanks. apply emits_only_bind.
    + apply silent_emits_only, silent_get_tree.
    + intros ast. apply emits_only_visit. intros node.
      apply emits_only_list_visitor.
Qed.

(** C8. Whatever the tree, the messages already in the file and the
    option, after either rule the tree is the tree it was called with and
    the file holds the earlier messages followed by the new ones: nothing
    else changed. *)
Theorem rules_read_only (toString : Node -> string)
  (number_to_string : number -> string) (option : value) (w : World) :
  let after_heading :=
    snd (MaximumHeadingLength.maximumHeadingLength
           toString number_to_string option w) in
  let after_list := snd (listItemSpacing option w) in
  tree after_heading = tree w
  /\ tree after_list = tree w
  /\ (exists extra, messages after_heading = (messages w ++ extra)%list)
  /\ (exists extra, messages after_list = (messages w ++ extra)%list).
Proof.
  intros after_heading after_list.
  destruct (emits_only_maximumHeadingLength toString number_to_string option w)
    as [e1 H1].
  destruct (emits_only_listItemSpacing option w) as [e2 H2].
  fold after_heading in H1. fold after_list in H2.
  rewrite H1, H2. repeat split; eexists; reflexivity.
Qed.

(** ** The documented examples *)

(** The heading of [not-ok.md] under the setting 40. *)
Example heading_not_ok :
  messages
    (snd (MaximumHeadingLength.maximumHeadingLength
            flatten_text integral_to_string (VNumber Samples.forty)
            (Samples.world_of Samples.heading_doc)))
  = [mkMessage "Use headings shorter than `40`" (AtNode Samples.heading)].
Proof. reflexivity. Qed.

(** The same heading of 49 characters under the default threshold, and
    under [Infinity]. *)
Example heading_ok :
  messages
    (snd (MaximumHeadingLength.maximumHeadingLength
            flatten_text integral_to_string VUndefined
            (Samples.world_of Samples.heading_doc))) = []
  /\ messages
       (snd (MaximumHeadingLength.maximumHeadingLength
               flatten_text integral_to_string (VNumber Samples.infinity)
               (Samples.world_of Samples.heading_doc))) = [].
Proof. split; reflexivity. Qed.

(** The four messages of [invalid.md] in the default mode:
    4:9-5:1, 5:11-6:1, 11:1-12:1 and 13:1-14:1. *)
Example list_invalid :
  map (fun m => (reason m, range_of (place m)))
    (messages (snd (listItemSpacing VUndefined
                      (Samples.world_of Samples.invalid_doc))))
  = [("Missing new line after list item",
      (Samples.at_ 4 9, Samples.at_ 5 1));
     ("Missing new line after list item",
      (Samples.at_ 5 11, Samples.at_ 6 1));
     ("Extraneous new line after list item",
      (Samples.at_ 11 1, Samples.at_ 12 1));
     ("Extraneous new line after list item",
      (Samples.at_ 13 1, Samples.at_ 14 1))].
Proof. reflexivity. Qed.

(** A nested item without blank lines: fine in blank-line mode, reported
    in the default mode. *)
Example list_nested :
  messages (snd (listItemSpacing Samples.check_blanks
                   (Samples.world_of Samples.nested_list))) = []
  /\ map (fun m => (reason m, range_of (place m)))
       (messages (snd (listItemSpacing VUndefined
                         (Samples.world_of Samples.nested_list))))
     = [("Missing new line after list item",
         (Samples.at_ 4 15, Samples.at_ 5 1))].
Proof. split; reflexivity. Qed.

(** A generated list is passed over although its wrapped first item is
    followed by no blank line. *)
Example list_generated_ignored :
  listItemSpacing VUndefined (Samples.world_of Samples.list_generated)
  = (Returned tt, Samples.world_of Samples.list_generated).
Proof. reflexivity. Qed.

(** A list without an array of children, or with an item without one,
    makes the visitor throw. *)
Example list_without_children :
  visitor false (mkNode "list" None None None (Samples.span 1 1 1 2) None)
          (Samples.world_of Samples.single)
  = (Thrown TypeError, Samples.world_of Samples.single).
Proof. reflexivity. Qed.

(** ** The theorems at the documented inputs *)

(** The heading of 49 characters against the threshold 40. *)
Lemma heading_visitor_spec_witness :
  generated Samples.heading = false
  /\ length_gt (String.length (flatten_text Samples.heading))
               (preferred_of (VNumber Samples.forty)) = true
  /\ MaximumHeadingLength.visitor flatten_text integral_to_string
       (preferred_of (VNumber Samples.forty)) Samples.heading
       (Samples.world_of Samples.heading_doc)
     = (Returned tt,
        reported (Samples.world_of Samples.heading_doc)
          [mkMessage "Use headings shorter than `40`"
                     (AtNode Samples.heading)]).
Proof.
  split; [reflexivity | split; [reflexivity |]].
  apply (heading_visitor_spec flatten_text integral_to_string
           (VNumber Samples.forty) Samples.heading
           (Samples.world_of Samples.heading_doc) eq_refl).
  reflexivity.
Defined.

(** The wrapped list of [invalid.md]: classified loose, both boundaries
    observed tight. *)
Lemma verification_phase_witness :
  generated Samples.wrapped_tight = false
  /\ children Samples.wrapped_tight = Some Samples.wrapped_items
  /\ forEach (infer false) Samples.wrapped_items true
       (Samples.world_of Samples.invalid_doc)
     = (Returned false, Samples.world_of Samples.invalid_doc)
  /\ visitor false Samples.wrapped_tight (Samples.world_of Samples.invalid_doc)
     = (Returned tt,
        reported (Samples.world_of Samples.invalid_doc)
          [mkMessage "Missing new line after list item"
             (AtRange (Samples.at_ 4 9) (Samples.at_ 5 1));
           mkMessage "Missing new line after list item"
             (AtRange (Samples.at_ 5 11) (Samples.at_ 6 1))]).
Proof.
  split; [reflexivity | split; [reflexivity | split; [reflexivity |]]].
  exact (proj1 (verification_phase false Samples.wrapped_tight
                  Samples.wrapped_items false
                  (Samples.world_of Samples.invalid_doc)
                  eq_refl eq_refl eq_refl)).
Defined.

(** The same list through the inference phase. *)
Lemma inference_phase_witness :
  generated Samples.wrapped_tight = false
  /\ children Samples.wrapped_tight = Some Samples.wrapped_items
  /\ exists isTightList,
       forEach (infer false) Samples.wrapped_items true
         (Samples.world_of Samples.invalid_doc)
       = (Returned isTightList, Samples.world_of Samples.invalid_doc).
Proof.
  split; [reflexivity | split; [reflexivity |]].
  destruct (inference_phase false Samples.wrapped_tight Samples.wrapped_items
              (Samples.world_of Samples.invalid_doc) eq_refl eq_refl)
    as (t & H & _).
  - repeat constructor; discriminate.
  - now exists t.
Defined.

(** The nested item in blank-line mode. *)
Lemma inferBlankLine_spec_witness :
  exists content,
    children Samples.nested_item = Some content
    /\ exists b,
         inferBlankLine Samples.nested_item
           (Samples.world_of Samples.nested_list)
         = (Returned b, Samples.world_of Samples.nested_list).
Proof.
  eexists. split; [reflexivity |].
  apply (inferBlankLine_spec Samples.nested_item _
           (Samples.world_of Samples.nested_list) eq_refl).
Defined.

(** The item without children. *)
Lemma infer_empty_item_witness :
  children Samples.empty_item = Some []
  /\ inferBlankLine Samples.empty_item (Samples.world_of Samples.single)
     = (Returned false, Samples.world_of Samples.single)
  /\ inferMultiline Samples.empty_item (Samples.world_of Samples.single)
     = (Returned false, Samples.world_of Samples.single).
Proof.
  split; [reflexivity |].
  destruct (infer_empty_item Samples.empty_item
              (Samples.world_of Samples.single) eq_refl) as (B & L & _).
  now split.
Defined.

(** The list of one wrapped item, in both modes. *)
Lemma single_item_silent_witness :
  children Samples.single = Some [Samples.single_item]
  /\ snd (visitor false Samples.single (Samples.world_of Samples.single))
     = Samples.world_of Samples.single
  /\ snd (visitor true Samples.single (Samples.world_of Samples.single))
     = Samples.world_of Samples.single.
Proof.
  split; [reflexivity | split].
  - apply (single_item_silent false Samples.single Samples.single_item
             (Samples.world_of Samples.single) eq_refl).
  - apply (single_item_silent true Samples.single Samples.single_item
             (Samples.world_of Samples.single) eq_refl).
Defined.

(** The heading and the list without positions. *)
Lemma generated_node_skipped_witness :
  generated Samples.heading_generated = true
  /\ generated Samples.list_generated = true
  /\ MaximumHeadingLength.visitor flatten_text integral_to_string
       Samples.forty Samples.heading_generated
       (Samples.world_of Samples.heading_generated)
     = (Returned tt, Samples.world_of Samples.heading_generated)
  /\ visitor false Samples.list_generated
       (Samples.world_of Samples.list_generated)
     = (Returned tt, Samples.world_of Samples.list_generated).
Proof.
  split; [reflexivity | split; [reflexivity | split]].
  - apply (generated_node_skipped flatten_text integral_to_string
             Samples.forty false Samples.heading_generated
             (Samples.world_of Samples.heading_generated) eq_refl).
  - apply (generated_node_skipped flatten_text integral_to_string
             Samples.forty false Samples.list_generated
             (Samples.world_of Samples.list_generated) eq_refl).
Defined.

(** ** Walks over several nodes *)

Lemma forEach_from_returned {A : Type} (callback : A -> nat -> unit -> M unit)
  (f : A -> list Message) (xs : list A) :
  (forall x, In x xs ->
     forall i w, callback x i tt w = (Returned tt, reported w (f x))) ->
  forall index w,
    forEach_from callback index xs tt w
    = (Returned tt, reported w (flat_map f xs)).
Proof.
  induction xs as [| x rest IH]; intros H index w.
  - simpl. unfold ret. now rewrite reported_nil.
  - cbn [forEach_from flat_map].
    rewrite (bind_returned _ _ _ _ _ (H x (or_introl eq_refl) index w)).
    rewrite IH by (intros y Hy; apply H; now right).
    now rewrite reported_app.
Qed.

Lemma forEach_from_thrown {A : Type} (callback : A -> nat -> unit -> M unit)
  (f : A -> list Message) (e : Error) (ok : list A) (bad : A) (rest : list A) :
  (forall x, In x ok ->
     forall i w, callback x i tt w = (Returned tt, reported w (f x))) ->
  (forall i w, callback bad i tt w = (Thrown e, w)) ->
  forall index w,
    forEach_from callback index (ok ++ bad :: rest) tt w
    = (Thrown e, reported w (flat_map f ok)).
Proof.
  induction ok as [| x ok' IH]; intros Hok Hbad index w.
  - simpl. rewrite (bind_thrown _ _ _ _ _ (Hbad index w)).
    now rewrite reported_nil.
  - cbn [app forEach_from flat_map].
    rewrite (bind_returned _ _ _ _ _ (Hok x (or_introl eq_refl) index w)).
    rewrite IH; [| intros y Hy; apply Hok; now right | exact Hbad].
    now rewrite reported_app.
Qed.

Lemma flat_map_if_singleton {A B : Type} (p : A -> bool) (g : A -> B)
  (xs : list A) :
  flat_map (fun x => if p x then [g x] else []) xs = map g (filter p xs).
Proof.
  induction xs as [| x rest IH]; [reflexivity |].
  simpl. destruct (p x); simpl; now rewrite IH.
Qed.

Lemma new_messages_reported {A : Type} (m : M A) (w : World)
  (extra : list Message) :
  snd (m w) = reported w extra -> new_messages m w = extra.
Proof.
  intros H. unfold new_messages. rewrite H. simpl.
  rewrite skipn_app, skipn_all, Nat.sub_diag. reflexivity.
Qed.

(** ** The heading rule on a whole tree *)

Lemma maximumHeadingLength_messages (toString : Node -> string)
  (number_to_string : number -> string) (option : value) (w : World) :
  MaximumHeadingLength.maximumHeadingLength toString number_to_string option w
  = (Returned tt,
     reported w
       (map (heading_message number_to_string (preferred_of option))
          (filter
             (fun node =>
                negb (generated node)
                && length_gt (String.length (toString node))
                             (preferred_of option))
             (nodes_of_type "heading" (tree w))))).
Proof.
  unfold MaximumHeadingLength.maximumHeadingLength, bind, get_tree, visit,
    forEach.
  rewrite <- flat_map_if_singleton.
  apply forEach_from_returned. intros node _ i w'.
  apply heading_visitor_run.
Qed.

(** X1. The heading rule never throws. Its messages are, after those
    already in the file and in document order, one message for each node
    of type heading in the tree that is not generated and whose flattened
    text is longer than the resolved threshold, nested headings included;
    no other node is reported. *)
Theorem maximumHeadingLength_run (toString : Node -> string)
  (number_to_string : number -> string) (option : value) (w : World) :
  let preferred := preferred_of option in
  let reported_nodes :=
    filter
      (fun node =>
         negb (generated node)
         && length_gt (String.length (toString node)) preferred)
      (filter (fun node => String.eqb (type node) "heading")
              (preorder (tree w))) in
  MaximumHeadingLength.maximumHeadingLength toString number_to_string option w
  = (Returned tt,
     reported w (map (heading_message number_to_string preferred)
                     reported_nodes))
  /\ forall node,
       In node reported_nodes <->
       In node (preorder (tree w))
       /\ type node = "heading"
       /\ generated node = false
       /\ length_gt (String.length (toString node)) preferred = true.
Proof.
  intros preferred reported_nodes. split.
  - apply maximumHeadingLength_messages.
  - intros node. unfold reported_nodes.
    rewrite filter_In, filter_In, andb_true_iff, negb_true_iff, String.eqb_eq.
    tauto.
Qed.

Lemma length_gt_number_of_nat (len n : nat) :
  length_gt len (number_of_nat n) = (n <? len)%nat.
Proof.
  destruct n as [| n].
  - simpl. destruct len; reflexivity.
  - unfold number_of_nat, length_gt.
    change (0 <=? 0) with true. cbv iota.
    rewrite Z.pow_0_r, Z.mul_1_r.
    destruct (Nat.ltb_spec (S n) len) as [H | H].
    + apply Z.ltb_lt. lia.
    + apply Z.ltb_ge. lia.
Qed.

Lemma preferred_of_number_of_nat (n : nat) :
  preferred_of (VNumber (number_of_nat n)) = number_of_nat n.
Proof. now destruct n. Qed.

(** X2. Raising a whole-number threshold never adds a warning: every node
    the heading rule reports under the threshold [b] it also reports
    under any threshold [a] not above [b], on the same tree. *)
Theorem raising_threshold (toString : Node -> string)
  (number_to_string : number -> string) (a b : nat) (w : World) :
  (a <= b)%nat ->
  incl
    (map place
       (new_messages
          (MaximumHeadingLength.maximumHeadingLength toString number_to_string
             (VNumber (number_of_nat b))) w))
    (map place
       (new_messages
          (MaximumHeadingLength.maximumHeadingLength toString number_to_string
             (VNumber (number_of_nat a))) w)).
Proof.
  intros Hab.
  rewrite !(new_messages_reported _ w _
              (f_equal snd (maximumHeadingLength_messages _ _ _ w))).
  rewrite !preferred_of_number_of_nat, !map_map. simpl.
  intros pl Hin. apply in_map_iff in Hin. destruct Hin as (node & <- & Hin).
  apply in_map_iff. exists node. split; [reflexivity |].
  apply filter_In in Hin. destruct Hin as [Hnode Hb].
  apply filter_In. split; [exact Hnode |].
  apply andb_true_iff in Hb. destruct Hb as [Hg Hb].
  rewrite Hg. simpl.
  rewrite length_gt_number_of_nat in *.
  apply Nat.ltb_lt in Hb. apply Nat.ltb_lt. lia.
Qed.

(** X3. The extreme thresholds the option check lets through: with the
    option [Infinity] the heading rule reports nothing on any tree, and
    with a negative option, [-Infinity] included, it reports every heading
    that is not generated, whatever its text, the empty text included. *)
Theorem extreme_thresholds (toString : Node -> string)
  (number_to_string : number -> string) (w : World) :
  MaximumHeadingLength.maximumHeadingLength toString number_to_string
    (VNumber (S754_infinity false)) w
  = (Returned tt, w)
  /\ forall p,
       is_negative p = true ->
       MaximumHeadingLength.maximumHeadingLength toString number_to_string
         (VNumber p) w
       = (Returned tt,
          reported w
            (map (heading_message number_to_string p)
               (filter (fun node => negb (generated node))
                  (nodes_of_type "heading" (tree w))))).
Proof.
  split.
  - rewrite maximumHeadingLength_messages.
    replace (filter _ (nodes_of_type "heading" (tree w))) with (@nil Node).
    + simpl. now rewrite reported_nil.
    + symmetry. induction (nodes_of_type "heading" (tree w)) as [| x r IH];
        [reflexivity |].
      simpl. rewrite andb_false_r. exact IH.
  - intros p Hp. rewrite maximumHeadingLength_messages.
    assert (E : preferred_of (VNumber p) = p)
      by (destruct p as [s | s | | s m e]; try discriminate Hp; reflexivity).
    rewrite E. do 3 f_equal.
    apply filter_ext. intros node.
    assert (G : length_gt (String.length (toString node)) p = true)
      by (destruct p as [s | s | | s m e]; try discriminate Hp;
          simpl in Hp; subst s; reflexivity).
    rewrite G. apply andb_true_r.
Qed.

(** ** The list visitor, case by case *)

Lemma active_predicate_uniform (blanks : bool) (item : Node) :
  has_children item = true ->
  exists b, forall w,
    (if blanks then inferBlankLine else inferMultiline) item w = (Returned b, w).
Proof.
  unfold has_children. destruct (children item) as [content |] eqn:E;
    [intros _ | discriminate].
  destruct blanks.
  - destruct (inferBlankLine_loop_spec content (S (List.length content)) 0)
      as (b & Hb & _); try lia.
    exists b. intros w. unfold inferBlankLine. rewrite E. cbv zeta.
    now rewrite Hb.
  - eexists. intros w. apply (inferMultiline_run item content w E).
Qed.

Lemma active_predicate_throws (blanks : bool) (item : Node) (w : World) :
  has_children item = false ->
  (if blanks then inferBlankLine else inferMultiline) item w
  = (Thrown TypeError, w).
Proof.
  unfold has_children. destruct (children item) as [content |] eqn:E;
    [discriminate | intros _].
  destruct blanks.
  - unfold inferBlankLine. now rewrite E.
  - unfold inferMultiline. now rewrite E.
Qed.

Lemma infer_phase_uniform (blanks : bool) (items : list Node) :
  forallb has_children items = true ->
  forall index t,
  exists t', forall w,
    forEach_from (infer blanks) index items t w = (Returned t', w).
Proof.
  induction items as [| item rest IH]; intros H index t.
  - exists t. reflexivity.
  - simpl in H. apply andb_true_iff in H. destruct H as [Hi Hr].
    destruct (active_predicate_uniform blanks item Hi) as [b Hb].
    destruct (IH Hr (S index) (if b then false else t)) as [t' Ht'].
    exists t'. intros w. cbn [forEach_from].
    rewrite (bind_returned _ _ _ _ _
               (infer_run blanks item index t b w (Hb w))).
    apply Ht'.
Qed.

Lemma infer_phase_throws (blanks : bool) (items : list Node) :
  forallb has_children items = false ->
  forall index t w,
    forEach_from (infer blanks) index items t w = (Thrown TypeError, w).
Proof.
  induction items as [| item rest IH]; intros H index t w; [discriminate H |].
  simpl in H. cbn [forEach_from].
  destruct (has_children item) eqn:Hi.
  - destruct (active_predicate_uniform blanks item Hi) as [b Hb].
    rewrite (bind_returned _ _ _ _ _
               (infer_run blanks item index t b w (Hb w))).
    apply IH. exact H.
  - apply bind_thrown. unfold infer.
    apply bind_thrown. now apply active_predicate_throws.
Qed.

Lemma has_children_Forall (items : list Node) :
  forallb has_children items = true ->
  Forall (fun item => children item <> None) items.
Proof.
  intros H. apply Forall_forall. intros item Hin.
  rewrite forallb_forall in H. specialize (H item Hin).
  unfold has_children in H. destruct (children item); [discriminate | discriminate H].
Qed.

(** What the visitor does on a node: nothing on a generated node; a
    [TypeError] before any message on a node without well-formed items;
    and otherwise the messages of the boundaries for the classification
    the inference phase returns. *)
Lemma list_visitor_cases (blanks : bool) (node : Node) :
  (generated node = true
   /\ forall w, visitor blanks node w = (Returned tt, w))
  \/ (well_formed_list node = false
      /\ forall w, visitor blanks node w = (Thrown TypeError, w))
  \/ (generated node = false
      /\ exists items t,
           children node = Some items
           /\ forallb has_children items = true
           /\ (forall w,
                 forEach (infer blanks) items true w = (Returned t, w))
           /\ forall w,
                visitor blanks node w
                = (Returned tt,
                   reported w
                     (flat_map (boundary_messages node t)
                               (combine items (tl items))))).
Proof.
  destruct (generated node) eqn:G.
  - left. split; [reflexivity |]. intros w. unfold visitor. now rewrite G.
  - right. destruct (children node) as [items |] eqn:C.
    + destruct (forallb has_children items) eqn:F.
      * right. split; [reflexivity |].
        destruct (infer_phase_uniform blanks items F 0%nat true) as [t Ht].
        exists items, t. repeat split; try assumption.
        intros w. unfold visitor. rewrite G, C.
        rewrite (bind_returned _ _ _ _ _ (Ht w)).
        apply (warn_phase node items t items [] w). reflexivity.
      * left. split.
        -- unfold well_formed_list. now rewrite G, C, F.
        -- intros w. unfold visitor. rewrite G, C.
           apply bind_thrown. now apply infer_phase_throws.
    + left. split.
      * unfold well_formed_list. now rewrite G, C.
      * intros w. unfold visitor. now rewrite G, C.
Qed.

Lemma well_formed_list_visitor (blanks : bool) (node : Node) :
  well_formed_list node = true ->
  forall w,
    visitor blanks node w
    = (Returned tt, reported w (emitted (visitor blanks) node)).
Proof.
  intros W w.
  destruct (list_visitor_cases blanks node)
    as [[G H] | [[F H] | (G & items & t & C & F & I & H)]].
  - unfold emitted. rewrite !H. simpl. now rewrite reported_nil.
  - congruence.
  - unfold emitted. rewrite !H. reflexivity.
Qed.

Lemma boundary_messages_bound (node : Node) (t : bool)
  (pairs : list (Node * Node)) :
  (List.length (flat_map (boundary_messages node t) pairs)
   <= List.length pairs)%nat.
Proof.
  induction pairs as [| [item next] rest IH]; [simpl; lia |].
  cbn [flat_map]. rewrite length_app. unfold boundary_messages at 1.
  destruct (Bool.eqb (observed_tight node item) t); simpl; lia.
Qed.

Lemma boundary_messages_reason (node : Node) (t : bool)
  (pairs : list (Node * Node)) (m : Message) :
  In m (flat_map (boundary_messages node t) pairs) ->
  reason m = if t then "Extraneous new line after list item"
             else "Missing new line after list item".
Proof.
  intros H. apply in_flat_map in H. destruct H as ([item next] & _ & H).
  apply boundary_messages_In in H. destruct H as [_ ->]. reflexivity.
Qed.

(** ** One list under the visitor *)

(** X4. The list visitor fails exactly on a node that is not generated
    and lacks an array of children, or has an item that lacks one. It
    then throws a [TypeError] before reporting anything, so the file is as
    it was; on every other node it returns. *)
Theorem list_visitor_outcome (blanks : bool) (node : Node) (w : World) :
  (well_formed_list node = false ->
   visitor blanks node w = (Thrown TypeError, w))
  /\ (well_formed_list node = true ->
      exists extra, visitor blanks node w = (Returned tt, reported w extra))
  /\ (well_formed_list node = false <->
      generated node = false
      /\ (children node = None
          \/ exists items item,
               children node = Some items
               /\ In item items /\ children item = None)).
Proof.
  split; [| split].
  - intros F.
    destruct (list_visitor_cases blanks node)
      as [[G H] | [[_ H] | (G & items & t & C & F' & I & H)]].
    + unfold well_formed_list in F. now rewrite G in F.
    + apply H.
    + unfold well_formed_list in F. rewrite G, C, F' in F. discriminate F.
  - intros W. eexists. now apply well_formed_list_visitor.
  - unfold well_formed_list. destruct (generated node); simpl.
    + split; [discriminate | intros [H _]; discriminate H].
    + destruct (children node) as [items |].
      * split.
        -- intros F. split; [reflexivity | right].
           assert (E : existsb (fun item => negb (has_children item)) items
                       = true).
           { induction items as [| x r IH]; [discriminate F |].
             simpl in *. destruct (has_children x); simpl; auto. }
           apply existsb_exists in E. destruct E as (item & Hin & Hc).
           exists items, item. repeat split; try assumption.
           unfold has_children in Hc. now destruct (children item).
        -- intros [_ [H | (items' & item & E & Hin & Hc)]]; [discriminate H |].
           injection E as <-.
           destruct (forallb has_children items) eqn:F; [| reflexivity].
           rewrite forallb_forall in F. specialize (F item Hin).
           unfold has_children in F. rewrite Hc in F. discriminate F.
      * split; [intros _; split; [reflexivity | now left] | reflexivity].
Qed.

(** X5. One visit of a list reports at most one message less than the
    list has items, and all its messages carry the same text: a list is
    never told both to add and to remove blank lines. *)
Theorem list_visitor_messages (blanks : bool) (node : Node) (w : World) :
  exists extra text,
    snd (visitor blanks node w) = reported w extra
    /\ (forall items,
          children node = Some items ->
          (List.length extra <= List.length items - 1)%nat)
    /\ (text = "Missing new line after list item"
        \/ text = "Extraneous new line after list item")
    /\ forall m, In m extra -> reason m = text.
Proof.
  destruct (list_visitor_cases blanks node)
    as [[G H] | [[F H] | (G & items & t & C & F & I & H)]].
  - exists [], "Missing new line after list item". rewrite H. simpl.
    rewrite reported_nil. repeat split; auto.
    + intros items _. simpl. lia.
    + intros m [].
  - exists [], "Missing new line after list item". rewrite H. simpl.
    rewrite reported_nil. repeat split; auto.
    + intros items _. simpl. lia.
    + intros m [].
  - exists (flat_map (boundary_messages node t) (combine items (tl items))),
      (if t then "Extraneous new line after list item"
       else "Missing new line after list item").
    rewrite H. simpl. repeat split.
    + intros items' E. rewrite C in E. injection E as <-.
      etransitivity; [apply boundary_messages_bound |].
      rewrite length_combine.
      destruct items as [| x r]; [simpl; lia |]. cbn [tl List.length]. lia.
    + destruct t; auto.
    + intros m. apply boundary_messages_reason.
Qed.

Lemma reported_same (w : World) (extra : list Message) :
  reported w extra = w <-> extra = [].
Proof.
  split.
  - intros H. apply (f_equal messages) in H. simpl in H.
    apply (app_inv_head (messages w)). now rewrite app_nil_r.
  - intros ->. apply reported_nil.
Qed.

Lemma flat_map_nil {A B : Type} (f : A -> list B) (xs : list A) :
  flat_map f xs = [] <-> forall x, In x xs -> f x = [].
Proof.
  induction xs as [| x rest IH]; simpl.
  - split; [intros _ y [] | reflexivity].
  - split.
    + intros H. apply app_eq_nil in H. destruct H as [Hx Hr].
      intros y [<- | Hy]; [exact Hx | now apply IH].
    + intros H. rewrite (H x (or_introl eq_refl)). simpl.
      apply IH. intros y Hy. apply H. now right.
Qed.

(** X6. A list that is not generated passes the rule without a message
    exactly when every item but the last is observed with the tightness
    the inference phase gave the list. *)
Theorem list_passes (blanks : bool) (node : Node) (items : list Node)
  (t : bool) (w : World) :
  generated node = false ->
  children node = Some items ->
  forEach (infer blanks) items true w = (Returned t, w) ->
  (visitor blanks node w = (Returned tt, w) <->
   forall i item,
     nth_error items i = Some item ->
     (S i < List.length items)%nat ->
     observed_tight node item = t).
Proof.
  intros G C I.
  assert (V : visitor blanks node w
              = (Returned tt,
                 reported w (flat_map (boundary_messages node t)
                                      (combine items (tl items))))).
  { unfold visitor. rewrite G, C. rewrite (bind_returned _ _ _ _ _ I).
    apply (warn_phase node items t items [] w). reflexivity. }
  rewrite V. split.
  - intros E. assert (E' : reported w (flat_map (boundary_messages node t)
                                        (combine items (tl items))) = w)
      by congruence.
    apply reported_same in E'. rewrite flat_map_nil in E'.
    intros i item Hi Hlt.
    destruct (nth_error items (S i)) as [next |] eqn:Hn;
      [| apply nth_error_None in Hn; lia].
    assert (P : In (item, next) (combine items (tl items))).
    { apply (nth_error_In _ i). apply nth_error_boundaries. now split. }
    specialize (E' _ P). unfold boundary_messages in E'.
    destruct (Bool.eqb (observed_tight node item) t) eqn:B;
      [now apply eqb_prop | discriminate E'].
  - intros H. f_equal. apply reported_same. apply flat_map_nil.
    intros [item next] P. apply In_nth_error in P. destruct P as [i P].
    apply nth_error_boundaries in P. destruct P as [Hi Hn].
    assert (S i < List.length items)%nat
      by (apply nth_error_Some; congruence).
    unfold boundary_messages. rewrite (H i item Hi) by assumption.
    now rewrite eqb_reflx.
Qed.

(** ** The two predicates compared *)

Lemma ordered_inv (child : Node) (rest : list Node) :
  ordered (child :: rest) = true ->
  start_line child <= end_line child /\ ordered rest = true.
Proof.
  cbn [ordered]. intros H.
  apply andb_true_iff in H. destruct H as [H Hr].
  apply andb_true_iff in H. destruct H as [Hs _].
  split; [now apply Z.leb_le | exact Hr].
Qed.

Lemma ordered_after (rest : list Node) :
  forall child b,
    ordered (child :: rest) = true -> In b rest ->
    end_line child <= start_line b.
Proof.
  induction rest as [| next rest' IH]; intros child b H Hin; [now elim Hin |].
  assert (Hn : end_line child <= start_line next).
  { cbn [ordered] in H. apply andb_true_iff in H. destruct H as [H _].
    apply andb_true_iff in H. destruct H as [_ H]. now apply Z.leb_le. }
  destruct (ordered_inv _ _ H) as [_ Hrest].
  destruct Hin as [<- | Hin]; [exact Hn |].
  destruct (ordered_inv _ _ Hrest) as [Hspan _].
  specialize (IH next b Hrest Hin). lia.
Qed.

Lemma ordered_nth (content : list Node) :
  ordered content = true ->
  forall i a,
    nth_error content i = Some a ->
    start_line a <= end_line a
    /\ forall j b,
         (i < j)%nat -> nth_error content j = Some b ->
         end_line a <= start_line b.
Proof.
  induction content as [| child rest IH]; intros H i a Hi.
  - destruct i; discriminate Hi.
  - destruct (ordered_inv _ _ H) as [Hspan Hrest].
    destruct i as [| i].
    + injection Hi as <-. split; [exact Hspan |].
      intros j b Hlt Hj. destruct j as [| j]; [lia |].
      apply (ordered_after rest child b H). now apply (nth_error_In _ j).
    + destruct (IH Hrest i a Hi) as [Ha Hafter]. split; [exact Ha |].
      intros j b Hlt Hj. destruct j as [| j]; [lia |].
      apply (Hafter j b); [lia | exact Hj].
Qed.

Lemma blank_line_implies_multiline (item : Node) (content : list Node)
  (w : World) :
  children item = Some content ->
  ordered content = true ->
  inferBlankLine item w = (Returned true, w) ->
  inferMultiline item w = (Returned true, w).
Proof.
  intros C O B.
  destruct (inferBlankLine_run item content w C) as (b & Hb & Hiff).
  assert (b = true) by congruence. subst b.
  destruct (proj1 Hiff eq_refl) as (i & child & next & Hc & Hn & Hgap).
  apply (inferMultiline_true item content w C).
  destruct content as [| head rest]; [destruct i; discriminate Hc |].
  destruct (exists_last (l := head :: rest)) as (front & tail & L);
    [discriminate |].
  exists head, rest, front, tail. repeat split; [exact L |].
  assert (Ht : nth_error (head :: rest) (List.length front) = Some tail).
  { rewrite L. rewrite nth_error_app2 by lia. now rewrite Nat.sub_diag. }
  assert (Hlen : (S i < List.length (head :: rest))%nat)
    by (apply nth_error_Some; congruence).
  assert (Hfront : List.length (head :: rest) = S (List.length front))
    by (rewrite L, length_app; simpl; lia).
  destruct (ordered_nth _ O 0%nat head eq_refl) as [Hhead Hafter_head].
  destruct (ordered_nth _ O i child Hc) as [Hchild _].
  destruct (ordered_nth _ O (S i) next Hn) as [Hnext Hafter_next].
  assert (H1 : start_line head <= end_line child).
  { destruct i as [| i'].
    - injection Hc as <-. exact Hhead.
    - specialize (Hafter_head (S i') child ltac:(lia) Hc). lia. }
  assert (H2 : end_line next <= end_line tail).
  { destruct (Nat.eq_dec (S i) (List.length front)) as [E | E].
    - rewrite E in Hn. rewrite Ht in Hn. injection Hn as <-. lia.
    - specialize (Hafter_next (List.length front) tail ltac:(lia) Ht).
      destruct (ordered_nth _ O (List.length front) tail Ht) as [Htail _].
      lia. }
  lia.
Qed.

(** X7. Where the children of every item are in source order, the
    blank-line mode is the more lenient of the two: a list it classifies
    loose is classified loose in the default mode as well. *)
Theorem loose_with_blanks_loose_by_default (items : list Node) (w : World) :
  Forall (fun item =>
            exists content,
              children item = Some content /\ ordered content = true)
         items ->
  forEach (infer true) items true w = (Returned false, w) ->
  forEach (infer false) items true w = (Returned false, w).
Proof.
  intros O B.
  assert (F : Forall (fun item => children item <> None) items).
  { apply Forall_forall. intros item Hin. rewrite Forall_forall in O.
    destruct (O item Hin) as (content & C & _). congruence. }
  destruct (infer_phase true items w F 0%nat true) as (t1 & H1 & I1).
  destruct (infer_phase false items w F 0%nat true) as (t2 & H2 & I2).
  unfold forEach in *. rewrite H1 in B. injection B as ->.
  rewrite H2. do 2 f_equal. apply I2. right.
  destruct (proj1 I1 eq_refl) as [D | (item & Hin & Hb)]; [discriminate D |].
  exists item. split; [exact Hin |].
  rewrite Forall_forall in O. destruct (O item Hin) as (content & C & Oc).
  now apply (blank_line_implies_multiline item content w C Oc).
Qed.

(** X8. In blank-line mode a list whose items each hold at most one block
    is always classified tight, however many lines the blocks span. *)
Theorem single_block_items_tight (items : list Node) (w : World) :
  Forall (fun item =>
            exists content,
              children item = Some content
              /\ (List.length content <= 1)%nat)
         items ->
  forEach (infer true) items true w = (Returned true, w).
Proof.
  intros S1.
  assert (F : Forall (fun item => children item <> None) items).
  { apply Forall_forall. intros item Hin. rewrite Forall_forall in S1.
    destruct (S1 item Hin) as (content & C & _). congruence. }
  destruct (infer_phase true items w F 0%nat true) as (t & H & I).
  unfold forEach. rewrite H. do 2 f_equal.
  destruct t; [reflexivity |].
  destruct (proj1 I eq_refl) as [D | (item & Hin & Hb)]; [discriminate D |].
  rewrite Forall_forall in S1. destruct (S1 item Hin) as (content & C & L).
  destruct (inferBlankLine_run item content w C) as (b & Hb' & Hiff).
  assert (b = true) by congruence. subst b.
  destruct (proj1 Hiff eq_refl) as (i & child & next & _ & Hn & _).
  assert (S i < List.length content)%nat
    by (apply nth_error_Some; congruence).
  lia.
Qed.

(** ** The list rule on a whole tree *)

(** X9. On a tree whose list nodes are all well formed the list rule
    returns, and its messages are, after those already in the file, the
    messages each list node yields on its own, in document order, lists
    nested in other lists and lists under generated nodes included. *)
Theorem listItemSpacing_run (preferred : value) (blanks : bool) (w : World) :
  blanks_of preferred = Returned blanks ->
  forallb well_formed_list (nodes_of_type "list" (tree w)) = true ->
  listItemSpacing preferred w
  = (Returned tt,
     reported w
       (flat_map (emitted (visitor blanks))
                 (nodes_of_type "list" (tree w)))).
Proof.
  intros B W.
  unfold listItemSpacing, lift, bind, get_tree, visit, forEach. rewrite B.
  apply forEach_from_returned. intros node Hin i w'.
  apply well_formed_list_visitor.
  rewrite forallb_forall in W. now apply W.
Qed.

(** X10. The list rule stops at the first list node, in document order,
    that is not well formed: it throws a [TypeError] there, the messages
    of the lists before it stay in the file, and the lists after it are
    not checked. *)
Theorem listItemSpacing_stops (preferred : value) (blanks : bool) (w : World)
  (ok : list Node) (bad : Node) (rest : list Node) :
  blanks_of preferred = Returned blanks ->
  nodes_of_type "list" (tree w) = (ok ++ bad :: rest)%list ->
  forallb well_formed_list ok = true ->
  well_formed_list bad = false ->
  listItemSpacing preferred w
  = (Thrown TypeError,
     reported w (flat_map (emitted (visitor blanks)) ok)).
Proof.
  intros B E W F.
  unfold listItemSpacing, lift, bind, get_tree, visit, forEach. rewrite B.
  fold (nodes_of_type "list" (tree w)). rewrite E.
  apply forEach_from_thrown.
  - intros node Hin i w'. apply well_formed_list_visitor.
    rewrite forallb_forall in W. now apply W.
  - intros i w'.
    destruct (list_visitor_cases blanks bad)
      as [[G H] | [[_ H] | (G & items & t & C & F' & I & H)]].
    + unfold well_formed_list in F. now rewrite G in F.
    + apply H.
    + unfold well_formed_list in F. rewrite G, C, F' in F. discriminate F.
Qed.

(** X11. An item without a position is observed loose wherever the start
    column of the list is not negative: followed by another item, it is
    reported with "Extraneous new line after list item" in a list
    classified tight, the range starting at a point without coordinates,
    and it is not reported in a list classified loose. *)
Theorem positionless_item (node item next : Node) (items : list Node)
  (isTightList : bool) (index : nat) (w : World) :
  position item = None ->
  0 <= to_number (column (start (Some node))) ->
  nth_error items (index + 1) = Some next ->
  warn items (column (start (Some node))) isTightList
       (if isTightList then "tight" else "loose") item index tt w
  = (Returned tt,
     if isTightList
     then reported w
            [mkMessage "Extraneous new line after list item"
               (AtRange (mkPoint None None) (start (Some next)))]
     else w).
Proof.
  intros P I N. rewrite warn_run, N.
  assert (E : end_ (Some item) = mkPoint None None)
    by (unfold end_, point_of; now rewrite P).
  assert (O : observed_tight node item = false).
  { unfold observed_tight. rewrite E.
    change (to_number (column (mkPoint None None))) with 0.
    rewrite Z.gtb_ltb. now apply Z.ltb_ge. }
  unfold boundary_messages. rewrite O, E.
  destruct isTightList; simpl; [reflexivity | now rewrite reported_nil].
Qed.

(** ** The further properties at sample inputs *)

(** The documented heading under the thresholds 40 and 60. *)
Lemma raising_threshold_witness :
  (40 <= 60)%nat
  /\ incl
       (map place
          (new_messages
             (MaximumHeadingLength.maximumHeadingLength flatten_text
                integral_to_string (VNumber (number_of_nat 60)))
             (Samples.world_of Samples.heading_doc)))
       (map place
          (new_messages
             (MaximumHeadingLength.maximumHeadingLength flatten_text
                integral_to_string (VNumber (number_of_nat 40)))
             (Samples.world_of Samples.heading_doc))).
Proof.
  assert (H : (40 <= 60)%nat) by lia.
  split; [exact H |].
  exact (raising_threshold flatten_text integral_to_string 40 60
           (Samples.world_of Samples.heading_doc) H).
Defined.

(** The nested list in blank-line mode passes: its one boundary is tight,
    as the list is. *)
Lemma list_passes_witness :
  generated Samples.nested_list = false
  /\ forEach (infer true) [Samples.nested_item;
                           Samples.parent "listItem" (Samples.span 5 1 5 11)
                             [Samples.paragraph "item 2" 5 5 5 11]]
       true (Samples.world_of Samples.nested_list)
     = (Returned true, Samples.world_of Samples.nested_list)
  /\ visitor true Samples.nested_list (Samples.world_of Samples.nested_list)
     = (Returned tt, Samples.world_of Samples.nested_list)
  /\ observed_tight Samples.nested_list Samples.nested_item = true.
Proof.
  split; [reflexivity | split; [reflexivity | split; [reflexivity |]]].
  apply (proj1 (list_passes true Samples.nested_list _ true
                  (Samples.world_of Samples.nested_list)
                  eq_refl eq_refl eq_refl)
               eq_refl 0%nat Samples.nested_item eq_refl).
  simpl. lia.
Defined.

(** The item with a blank line inside is loose in both modes. *)
Lemma loose_with_blanks_loose_by_default_witness :
  ordered [Samples.paragraph "item 1" 10 5 10 11;
           Samples.parent "list" (Samples.span 12 5 12 15)
             [Samples.parent "listItem" (Samples.span 12 5 12 15)
                [Samples.paragraph "item 1.A" 12 7 12 15]]] = true
  /\ forEach (infer true) [Samples.blank_item] true
       (Samples.world_of Samples.blank_item)
     = (Returned false, Samples.world_of Samples.blank_item)
  /\ forEach (infer false) [Samples.blank_item] true
       (Samples.world_of Samples.blank_item)
     = (Returned false, Samples.world_of Samples.blank_item).
Proof.
  split; [reflexivity | split; [reflexivity |]].
  apply (loose_with_blanks_loose_by_default [Samples.blank_item]
           (Samples.world_of Samples.blank_item)).
  - constructor; [| constructor]. eexists. split; reflexivity.
  - reflexivity.
Defined.

(** The wrapped list: one paragraph per item, tight in blank-line mode
    although its first item spans two lines. *)
Lemma single_block_items_tight_witness :
  forEach (infer true) Samples.wrapped_items true
    (Samples.world_of Samples.invalid_doc)
  = (Returned true, Samples.world_of Samples.invalid_doc)
  /\ forEach (infer false) Samples.wrapped_items true
       (Samples.world_of Samples.invalid_doc)
     = (Returned false, Samples.world_of Samples.invalid_doc).
Proof.
  split; [| reflexivity].
  apply (single_block_items_tight Samples.wrapped_items
           (Samples.world_of Samples.invalid_doc)).
  unfold Samples.wrapped_items.
  repeat (constructor; [eexists; split; [reflexivity | simpl; lia] |]).
  constructor.
Defined.

(** [invalid.md] in the default mode: the two lists, two messages each. *)
Lemma listItemSpacing_run_witness :
  blanks_of VUndefined = Returned false
  /\ forallb well_formed_list
       (nodes_of_type "list" Samples.invalid_doc) = true
  /\ listItemSpacing VUndefined (Samples.world_of Samples.invalid_doc)
     = (Returned tt,
        reported (Samples.world_of Samples.invalid_doc)
          [mkMessage "Missing new line after list item"
             (AtRange (Samples.at_ 4 9) (Samples.at_ 5 1));
           mkMessage "Missing new line after list item"
             (AtRange (Samples.at_ 5 11) (Samples.at_ 6 1));
           mkMessage "Extraneous new line after list item"
             (AtRange (Samples.at_ 11 1) (Samples.at_ 12 1));
           mkMessage "Extraneous new line after list item"
             (AtRange (Samples.at_ 13 1) (Samples.at_ 14 1))]).
Proof.
  split; [reflexivity | split; [reflexivity |]].
  exact (listItemSpacing_run VUndefined false
           (Samples.world_of Samples.invalid_doc) eq_refl eq_refl).
Defined.

(** A list without children between the two lists of [invalid.md]: the
    first list is reported, the third is never reached. *)
Lemma listItemSpacing_stops_witness :
  nodes_of_type "list" Samples.broken_doc
  = [Samples.wrapped_tight;
     mkNode "list" None None None (Samples.span 8 1 8 2) None;
     Samples.short_loose]
  /\ listItemSpacing VUndefined (Samples.world_of Samples.broken_doc)
     = (Thrown TypeError,
        reported (Samples.world_of Samples.broken_doc)
          [mkMessage "Missing new line after list item"
             (AtRange (Samples.at_ 4 9) (Samples.at_ 5 1));
           mkMessage "Missing new line after list item"
             (AtRange (Samples.at_ 5 11) (Samples.at_ 6 1))]).
Proof.
  split; [reflexivity |].
  exact (listItemSpacing_stops VUndefined false
           (Samples.world_of Samples.broken_doc)
           [Samples.wrapped_tight]
           (mkNode "list" None None None (Samples.span 8 1 8 2) None)
           [Samples.short_loose] eq_refl eq_refl eq_refl eq_refl).
Defined.

(** The inserted item at the head of a tight list. *)
Lemma positionless_item_witness :
  position Samples.inserted_item = None
  /\ warn [Samples.inserted_item;
           Samples.parent "listItem" (Samples.span 3 1 3 11)
             [Samples.paragraph "item 2" 3 5 3 11];
           Samples.parent "listItem" (Samples.span 4 1 4 11)
             [Samples.paragraph "item 3" 4 5 4 11]]
       (column (start (Some Samples.inserted_list))) true "tight"
       Samples.inserted_item 0 tt (Samples.world_of Samples.inserted_list)
     = (Returned tt,
        reported (Samples.world_of Samples.inserted_list)
          [mkMessage "Extraneous new line after list item"
             (AtRange (mkPoint None None) (Samples.at_ 3 1))]).
Proof.
  split; [reflexivity |].
  apply (positionless_item Samples.inserted_list Samples.inserted_item
           (Samples.parent "listItem" (Samples.span 3 1 3 11)
              [Samples.paragraph "item 2" 3 5 3 11])
           _ true 0%nat (Samples.world_of Samples.inserted_list) eq_refl).
  - simpl. lia.
  - reflexivity.
Defined.

(** The rule on the list with the inserted item. *)
Example list_inserted :
  map (fun m => (reason m, range_of (place m)))
    (messages (snd (listItemSpacing VUndefined
                      (Samples.world_of Samples.inserted_list))))
  = [("Extraneous new line after list item",
      (mkPoint None None, Samples.at_ 3 1))].
Proof. reflexivity. Qed.

(** ** What a run depends on *)

Lemma uniform_forEach_from {A : Type} (callback : A -> nat -> unit -> M unit) :
  (forall x i, uniform (callback x i tt)) ->
  forall xs index, uniform (forEach_from callback index xs tt).
Proof.
  intros U xs. induction xs as [| x rest IH]; intros index.
  - exists (Returned tt), []. intros w. simpl. unfold ret.
    now rewrite reported_nil.
  - destruct (U x index) as (o & e & H).
    destruct (IH (S index)) as (o' & e' & H').
    destruct o as [[] | err].
    + exists o', (e ++ e')%list. intros w. cbn [forEach_from].
      rewrite (bind_returned _ _ _ _ _ (H w)). rewrite H'.
      now rewrite reported_app.
    + exists (Thrown err), e. intros w. cbn [forEach_from].
      apply bind_thrown. apply H.
Qed.

Lemma uniform_visit (root : Node) (test : string) (visitor : Node -> M unit) :
  (forall node, uniform (visitor node)) -> uniform (visit root test visitor).
Proof.
  intros U. unfold visit, forEach. apply uniform_forEach_from.
  intros node i. apply U.
Qed.

Lemma uniform_list_visitor (blanks : bool) (node : Node) :
  uniform (visitor blanks node).
Proof.
  destruct (list_visitor_cases blanks node)
    as [[G H] | [[F H] | (G & items & t & C & F & I & H)]].
  - exists (Returned tt), []. intros w. now rewrite H, reported_nil.
  - exists (Thrown TypeError), []. intros w. now rewrite H, reported_nil.
  - eexists _, _. exact H.
Qed.

Lemma uniform_heading_visitor (toString : Node -> string)
  (number_to_string : number -> string) (preferred : number) (node : Node) :
  uniform
    (MaximumHeadingLength.visitor toString number_to_string preferred node).
Proof. eexists _, _. intros w. apply heading_visitor_run. Qed.

Lemma uniform_same_tree {A : Type} (rule : M A) (walk : Node -> M A)
  (w w' : World) :
  (forall v, rule v = walk (tree v) v) ->
  (forall root, uniform (walk root)) ->
  tree w = tree w' ->
  fst (rule w) = fst (rule w')
  /\ new_messages rule w = new_messages rule w'.
Proof.
  intros R U T. destruct (U (tree w)) as (o & e & H).
  assert (Hw : rule w = (o, reported w e)) by (rewrite R; apply H).
  assert (Hw' : rule w' = (o, reported w' e))
    by (rewrite R, <- T; apply H).
  split.
  - now rewrite Hw, Hw'.
  - rewrite (new_messages_reported rule w e) by now rewrite Hw.
    rewrite (new_messages_reported rule w' e) by now rewrite Hw'.
    reflexivity.
Qed.

(** X12. What either rule returns or throws, and the messages it adds,
    depend on the tree and the option only: the messages already in the
    file are never read, so a second run on the same tree adds the same
    messages again. *)
Theorem rules_depend_on_tree (toString : Node -> string)
  (number_to_string : number -> string) (option : value) (w w' : World) :
  tree w = tree w' ->
  let heading_rule :=
    MaximumHeadingLength.maximumHeadingLength toString number_to_string
      option in
  let list_rule := listItemSpacing option in
  fst (heading_rule w) = fst (heading_rule w')
  /\ new_messages heading_rule w = new_messages heading_rule w'
  /\ fst (list_rule w) = fst (list_rule w')
  /\ new_messages list_rule w = new_messages list_rule w'
  /\ new_messages (heading_rule ;;; heading_rule) w
     = (new_messages heading_rule w ++ new_messages heading_rule w)%list.
Proof.
  intros T heading_rule list_rule.
  assert (UH : forall root,
             uniform (visit root "heading"
                        (MaximumHeadingLength.visitor toString
                           number_to_string (preferred_of option)))).
  { intros root. apply uniform_visit. intros node.
    apply uniform_heading_visitor. }
  destruct (uniform_same_tree heading_rule
              (fun root =>
                 visit root "heading"
                   (MaximumHeadingLength.visitor toString number_to_string
                      (preferred_of option)))
              w w' (fun v => eq_refl) UH T) as [H1 H2].
  assert (L : fst (list_rule w) = fst (list_rule w')
              /\ new_messages list_rule w = new_messages list_rule w').
  { unfold list_rule, listItemSpacing.
    destruct (blanks_of option) as [blanks | e] eqn:B.
    - apply (uniform_same_tree _
               (fun root => visit root "list" (visitor blanks)) w w').
      + intros v. unfold bind, lift, get_tree. reflexivity.
      + intros root. apply uniform_visit. intros node.
        apply uniform_list_visitor.
      + exact T.
    - unfold bind, lift, new_messages. simpl.
      now rewrite !skipn_all. }
  destruct L as [H3 H4].
  repeat split; try assumption.
  destruct (UH (tree w)) as (o & e & H).
  assert (R : forall v, tree v = tree w -> heading_rule v = (o, reported v e)).
  { intros v Tv. unfold heading_rule,
      MaximumHeadingLength.maximumHeadingLength, bind, get_tree.
    rewrite Tv. apply H. }
  assert (O : o = Returned tt).
  { pose proof (maximumHeadingLength_messages toString number_to_string
                  option w) as E.
    fold heading_rule in E. rewrite (R w eq_refl) in E. congruence. }
  subst o.
  rewrite (new_messages_reported heading_rule w e)
    by now rewrite (R w eq_refl).
  apply new_messages_reported.
  rewrite (bind_returned _ _ _ _ _ (R w eq_refl)).
  rewrite (R (reported w e) eq_refl). simpl. apply reported_app.
Qed.

(** Two files over the documented heading, one already holding a message. *)
Lemma rules_depend_on_tree_witness :
  tree (Samples.world_of Samples.heading_doc)
  = tree (mkWorld Samples.heading_doc
            [mkMessage "earlier" (AtNode Samples.heading)])
  /\ new_messages
       (MaximumHeadingLength.maximumHeadingLength flatten_text
          integral_to_string (VNumber Samples.forty))
       (Samples.world_of Samples.heading_doc)
     = new_messages
         (MaximumHeadingLength.maximumHeadingLength flatten_text
            integral_to_string (VNumber Samples.forty))
         (mkWorld Samples.heading_doc
            [mkMessage "earlier" (AtNode Samples.heading)]).
Proof.
  split; [reflexivity |].
  apply (rules_depend_on_tree flatten_text integral_to_string
           (VNumber Samples.forty)
           (Samples.world_of Samples.heading_doc)
           (mkWorld Samples.heading_doc
              [mkMessage "earlier" (AtNode Samples.heading)]) eq_refl).
Defined.
